(** * CRISPR guide design: PAM search, guide extraction, scoring, off-targets

    A shallow embedding of [src/utils/sequence_tools.py] and
    [src/utils/scoring_algorithms.py].

    Conventions of the embedding:
    - a Python [str] is a [list ascii] (the sources only handle ASCII text);
    - a Python [int] is a [Z]; [len], [range] and slicing follow Python,
      negative slice indices included;
    - a Python [float] is an exact rational [Q]: the scores are read as the
      real numbers the float expressions denote, equality of scores is [==].
      A sum of decimal literals is exact here where binary64 rounds it
      (0.4 * 0.0 + 0.2 + 0.2 + 0.2 is 0.6 here and 0.6000000000000001
      there), so such a sum is only compared with bounds and values on which
      the two readings agree;
    - a [dict] with a fixed set of keys is a record; a key that is attached
      later ([off_target_score]) is an [option] field;
    - the [KeyError] of [find_pam_sites] is [None]; the other functions that
      can raise return a [res], a value or the exception raised. *)

From Stdlib Require Import List String Ascii Bool ZArith QArith Qround Qminmax Lia Lqa Sorted.
Import ListNotations.

Local Open Scope Z_scope.

Definition str := list ascii.

(** A string literal of the source. *)
Definition py (s : string) : str := list_ascii_of_string s.

(** ** Python built-ins used by the sources *)

Module Py.

Definition len {A} (s : list A) : Z := Z.of_nat (List.length s).

(** [range(lo, hi)]: empty when [hi <= lo]. *)
Definition range (lo hi : Z) : list Z :=
  map (fun k => lo + Z.of_nat k) (seq 0 (Z.to_nat (hi - lo))).

(** Bound of a slice: a negative index counts from the end, and every
    index is clipped to [0, len]. *)
Definition slice_index (n i : Z) : Z :=
  if i <? 0 then Z.max 0 (i + n) else Z.min i n.

(** [s[lo:hi]] *)
Definition slice {A} (s : list A) (lo hi : Z) : list A :=
  let a := slice_index (len s) lo in
  let b := slice_index (len s) hi in
  firstn (Z.to_nat (b - a)) (skipn (Z.to_nat a) s).

(** [s[i]] for [0 <= i < len s]; [None] is the [IndexError]. *)
Definition item {A} (s : list A) (i : Z) : option A :=
  if (0 <=? i) && (i <? len s) then nth_error s (Z.to_nat i) else None.

(** [s.count(c)] for a one-character [c]. *)
Definition count (c : ascii) (s : str) : Z :=
  len (filter (Ascii.eqb c) s).

(** [str.upper] on ASCII text. *)
Definition upper_char (c : ascii) : ascii :=
  let n := nat_of_ascii c in
  if (97 <=? n)%nat && (n <=? 122)%nat then ascii_of_nat (n - 32) else c.

Definition upper (s : str) : str := map upper_char s.

(** [s.replace(c, "")] for a one-character [c]. *)
Definition remove (c : ascii) (s : str) : str :=
  filter (fun x => negb (Ascii.eqb x c)) s.

Fixpoint startswith (p s : str) : bool :=
  match p, s with
  | [], _ => true
  | _ :: _, [] => false
  | a :: p', b :: s' => Ascii.eqb a b && startswith p' s'
  end.

(** [needle in hay] on strings: [needle] occurs in [hay] as a contiguous
    run. *)
Fixpoint contains (needle hay : str) : bool :=
  startswith needle hay ||
  match hay with
  | [] => false
  | _ :: hay' => contains needle hay'
  end.

(** [sum(a != b for a, b in zip(x, y))] *)
Fixpoint mismatches (x y : str) : Z :=
  match x, y with
  | a :: x', b :: y' => (if Ascii.eqb a b then 0 else 1) + mismatches x' y'
  | _, _ => 0
  end.

(** [round(x, 1)] rounds the exact value to the nearest multiple of one
    tenth, a tie going to the even neighbour. *)
Definition round_half_even (q : Q) : Z :=
  let f := Qfloor q in
  match Qcompare (q - inject_Z f) (1 # 2) with
  | Lt => f
  | Gt => f + 1
  | Eq => if Z.even f then f else f + 1
  end.

Definition round1 (x : Q) : Q := Qmake (round_half_even (x * 10)) 10.

(** [x < y] on numbers. *)
Definition Qlt_bool (x y : Q) : bool := negb (Qle_bool y x).

End Py.

(** ** The regular expressions of [find_pam_sites]

    All three patterns are a single lookahead [(?=...)] over a run of
    one-character atoms. *)

Module Re.

Inductive atom :=
| Dot                 (* [.]: any character but a newline *)
| Class (cs : str)    (* [[...]] *)
| Lit (c : ascii).

Definition newline : ascii := ascii_of_nat 10.

Definition atom_matches (a : atom) (c : ascii) : bool :=
  match a with
  | Dot => negb (Ascii.eqb c newline)
  | Class cs => existsb (Ascii.eqb c) cs
  | Lit c' => Ascii.eqb c c'
  end.

Fixpoint matches_at (p : list atom) (s : str) : bool :=
  match p, s with
  | [], _ => true
  | _ :: _, [] => false
  | a :: p', c :: s' => atom_matches a c && matches_at p' s'
  end.

(** [[m.start() for m in re.finditer("(?=p)", s)]]: the lookahead consumes
    nothing, so every position from [0] to [len s] is tried in turn. *)
Definition finditer_lookahead (p : list atom) (s : str) : list Z :=
  filter (fun i => matches_at p (skipn (Z.to_nat i) s))
         (Py.range 0 (Py.len s + 1)).

End Re.

(** ** sequence_tools.py *)

Definition pam_patterns (pam_type : string) : option (list Re.atom) :=
  if String.eqb pam_type "SpCas9 (NGG)" then
    Some [Re.Dot; Re.Lit "G"; Re.Lit "G"]
  else if String.eqb pam_type "SaCas9 (NNGRRT)" then
    Some [Re.Dot; Re.Dot; Re.Class (py "GA"); Re.Class (py "AG");
          Re.Class (py "AG"); Re.Lit "T"]
  else if String.eqb pam_type "Cas12a (TTTV)" then
    Some [Re.Lit "T"; Re.Lit "T"; Re.Lit "T"; Re.Class (py "ACG")]
  else None.

Definition clean (sequence : str) : str :=
  Py.remove Re.newline (Py.remove " " (Py.upper sequence)).

(** The [st.info] message shown when no site is found does not change
    the returned list and is left out. *)
Definition find_pam_sites (sequence : str) (pam_type : string)
  : option (list Z) :=
  match pam_patterns pam_type with
  | None => None
  | Some pattern => Some (Re.finditer_lookahead pattern (clean sequence))
  end.

Local Open Scope Q_scope.

(** Modelled from the spec: [gc_fraction] is Biopython's
    [Bio.SeqUtils.gc_fraction], which is not part of the sources; the spec
    gives it as (count(G) + count(C)) / length(guide).  The library returns
    0 for a sequence of length 0. *)
Definition gc_fraction (s : str) : Q :=
  if (Py.len s =? 0)%Z then 0
  else inject_Z (Py.count "G" s + Py.count "C" s) / inject_Z (Py.len s).

(** The candidate dictionaries.  [off_target_score] is absent until
    [check_off_targets] attaches it. *)
Record grna := mk_grna {
  sequence : str;
  pam : str;
  position : Z;
  gc_content : Q;
  off_target_score : option Q
}.

(** The dictionary [design_grnas] appends for [site]. *)
Definition grna_at (sequence : str) (site : Z) : grna :=
  let grna_seq := Py.slice sequence (site - 20) site in
  {| sequence := grna_seq;
     pam := Py.slice sequence site (site + 3);
     position := site - 20;
     gc_content := gc_fraction grna_seq;
     off_target_score := None |}.

Definition design_grnas (sequence : str) (pam_sites : list Z)
  (gc_min gc_max : Q) : list grna :=
  fold_left
    (fun grnas site =>
       if (20 <=? site)%Z then
         let grna_seq := Py.slice sequence (site - 20) site in
         let gc_content := gc_fraction grna_seq in
         if Qle_bool gc_min gc_content && Qle_bool gc_content gc_max then
           grnas ++ [grna_at sequence site]
         else grnas
       else grnas)
    pam_sites [].

(** The offsets the sliding window of [check_off_targets] visits. *)
Definition window_offsets (sequence target_sequence : str) : list Z :=
  Py.range 0 (Py.len target_sequence - Py.len sequence).

(** The running sum of [check_off_targets] for one guide. *)
Definition off_target_sum (sequence target_sequence : str) : Q :=
  fold_left
    (fun off_target_score i =>
       let window := Py.slice target_sequence i (i + Py.len sequence) in
       let mismatches := Py.mismatches sequence window in
       if (mismatches <=? 4)%Z then
         off_target_score + 1 / inject_Z (2 ^ mismatches)
       else off_target_score)
    (window_offsets sequence target_sequence) 0.

Definition off_target (sequence target_sequence : str) : Q :=
  let normalized_score := Qmin 100 (off_target_sum sequence target_sequence * 20) in
  Py.round1 normalized_score.

Definition check_off_targets (grnas : list grna) (target_sequence : str)
  : list grna :=
  map (fun g =>
         {| sequence := sequence g;
            pam := pam g;
            position := position g;
            gc_content := gc_content g;
            off_target_score := Some (off_target (sequence g) target_sequence) |})
      grnas.

(** ** scoring_algorithms.py, class [CRISPRScoring] *)

Module CRISPRScoring.

Definition gc_score (sequence : str) : Q :=
  let gc := gc_fraction sequence in
  if Qle_bool 0.45 gc && Qle_bool gc 0.65 then 1
  else if Py.Qlt_bool gc 0.45 then gc / 0.45
  else (1 - gc) / 0.35.

Definition complement (base : ascii) : ascii :=
  if Ascii.eqb base "A" then "T"
  else if Ascii.eqb base "T" then "A"
  else if Ascii.eqb base "G" then "C"
  else if Ascii.eqb base "C" then "G"
  else base.

Definition rev_comp (sequence : str) : str := map complement (rev sequence).

(** The pairs [(i, j)] the two nested loops run through, in order. *)
Definition scanned_pairs (seq_len : Z) : list (Z * Z) :=
  flat_map (fun i => map (fun j => (i, j)) (Py.range (i + 5) seq_len))
           (Py.range 0 (seq_len - 4)).

Definition max_complementary (sequence : str) : Z :=
  fold_left
    (fun max_complementary ij =>
       let region := Py.slice sequence (fst ij) (snd ij) in
       if Py.contains region (rev_comp sequence) then
         Z.max max_complementary (Py.len region)
       else max_complementary)
    (scanned_pairs (Py.len sequence)) 0%Z.

(** The thresholds applied to the tracked maximum. *)
Definition complementarity_penalty (max_complementary : Z) : Q :=
  if (max_complementary <? 5)%Z then 1
  else if (12 <=? max_complementary)%Z then 0
  else 1 - inject_Z (max_complementary - 5) / 7.

Definition self_complementarity_score (sequence : str) : Q :=
  complementarity_penalty (max_complementary sequence).

(** [get_homopolymer_run]: the loop state is [(max_run, current_run)].
    Both [seq[i]] and [seq[i-1]] exist for every [i] of [range(1, len(seq))];
    the last branch is never taken. *)
Definition get_homopolymer_run (seq : str) (base : ascii) : Z :=
  fst (fold_left
         (fun st i =>
            let '(max_run, current_run) := st in
            match Py.item seq i, Py.item seq (i - 1) with
            | Some x, Some y =>
                if Ascii.eqb x y && Ascii.eqb y base then
                  (Z.max max_run (current_run + 1), current_run + 1)%Z
                else (max_run, 1%Z)
            | _, _ => (max_run, 1%Z)
            end)
         (Py.range 1 (Py.len seq)) (1%Z, 1%Z)).

Definition t_penalty (run : Z) : Q :=
  if (run <=? 2)%Z then 1
  else if (4 <=? run)%Z then 0
  else 1 - inject_Z (run - 2) / 2.

Definition agc_penalty (run : Z) : Q :=
  if (run <=? 3)%Z then 1
  else if (5 <=? run)%Z then 0
  else 1 - inject_Z (run - 3) / 2.

Definition homopolymer_score (sequence : str) : Q :=
  let t_run := get_homopolymer_run sequence "T" in
  let a_run := get_homopolymer_run sequence "A" in
  let g_run := get_homopolymer_run sequence "G" in
  let c_run := get_homopolymer_run sequence "C" in
  let t_score := t_penalty t_run in
  let a_score := agc_penalty a_run in
  let g_score := agc_penalty g_run in
  let c_score := agc_penalty c_run in
  0.4 * t_score + 0.2 * a_score + 0.2 * g_score + 0.2 * c_score.

(** One row of the [preferences] table: the weights of G, A, C and T. *)
Record weights := mk_weights { wG : Q; wA : Q; wC : Q; wT : Q }.

(** [weights.get(base, 0.3)] *)
Definition weights_get (w : weights) (base : ascii) : Q :=
  if Ascii.eqb base "G" then wG w
  else if Ascii.eqb base "A" then wA w
  else if Ascii.eqb base "C" then wC w
  else if Ascii.eqb base "T" then wT w
  else 0.3.

Definition preferences : list (Z * weights) :=
  [ (1%Z,  mk_weights 0.9 0.6 0.4 0.2);
    (2%Z,  mk_weights 0.3 0.8 0.4 0.3);
    (3%Z,  mk_weights 0.6 0.6 0.4 0.3);
    (4%Z,  mk_weights 0.5 0.5 0.5 0.4);
    (16%Z, mk_weights 0.7 0.5 0.3 0.3);
    (17%Z, mk_weights 0.8 0.4 0.3 0.2);
    (18%Z, mk_weights 0.7 0.4 0.4 0.3);
    (19%Z, mk_weights 0.6 0.5 0.4 0.3);
    (20%Z, mk_weights 0.8 0.4 0.3 0.2) ].

(** The loop of [position_score]; the state is [(score, count)].
    [sequence[pos-1]] exists whenever [1 <= pos <= len(sequence)], so the
    [None] branch is never taken. *)
Definition position_totals (sequence : str) : Q * Z :=
  fold_left
    (fun st pw =>
       let '(score, count) := st in
       let '(pos, w) := pw in
       if (pos <=? Py.len sequence)%Z then
         match Py.item sequence (pos - 1) with
         | Some base => (score + weights_get w base, (count + 1)%Z)
         | None => (score, count)
         end
       else (score, count))
    preferences (0, 0%Z).

Definition position_score (sequence : str) : Q :=
  let '(score, count) := position_totals sequence in
  if (0 <? count)%Z then score / inject_Z count else 0.5.

(** The dictionary [calculate_all_scores] returns. *)
Record scores := mk_scores {
  s_gc_score : Q;
  s_self_complementarity : Q;
  s_homopolymer : Q;
  s_position : Q;
  s_final_score : Q
}.

Definition calculate_all_scores (sequence : str) : scores :=
  let gc := gc_score sequence in
  let sc := self_complementarity_score sequence in
  let hp := homopolymer_score sequence in
  let ps := position_score sequence in
  (* sum(scores[k] * weights[k] for k in scores), keys in insertion order *)
  let final_score := 0 + gc * 0.25 + sc * 0.25 + hp * 0.2 + ps * 0.3 in
  {| s_gc_score := gc;
     s_self_complementarity := sc;
     s_homopolymer := hp;
     s_position := ps;
     s_final_score := final_score |}.

End CRISPRScoring.

(** * Notions used in the statements *)

Import CRISPRScoring.

Definition dna_base (c : ascii) : Prop :=
  c = "A"%char \/ c = "T"%char \/ c = "G"%char \/ c = "C"%char.

Definition dna (s : str) : Prop := Forall dna_base s.

(** The test [design_grnas] applies to a site. *)
Definition keeps (sequence : str) (gc_min gc_max : Q) (site : Z) : bool :=
  (20 <=? site)%Z &&
  (Qle_bool gc_min (gc_fraction (Py.slice sequence (site - 20) site)) &&
   Qle_bool (gc_fraction (Py.slice sequence (site - 20) site)) gc_max).

(** The claim that the [pam] attribute is the whole motif matched under the
    profile: under [pam_type], whose pattern has [Py.len pattern] atoms, the
    attribute is the slice of that length at the candidate's site. *)
Definition pam_is_full_match (pam_type : string) (seq : str)
  (gc_min gc_max : Q) : Prop :=
  forall pattern sites c,
    pam_patterns pam_type = Some pattern ->
    find_pam_sites seq pam_type = Some sites ->
    In c (design_grnas seq sites gc_min gc_max) ->
    pam c = Py.slice seq (position c + 20) (position c + 20 + Py.len pattern).

(** The guide span [position, position + 20) of a candidate lies within
    the sequence. *)
Definition span_in_bounds (seq : str) (c : grna) : Prop :=
  (0 <= position c)%Z /\ (position c + 20 <= Py.len seq)%Z.

(** The alignment of [guide] at offset [i] of [target], and what it adds to
    the sum: [1 / 2^m] for [m <= 4] mismatches, nothing otherwise. *)
Definition window_mismatches (guide target : str) (i : Z) : Z :=
  Py.mismatches guide (Py.slice target i (i + Py.len guide)).

Definition window_term (guide target : str) (i : Z) : Q :=
  if (window_mismatches guide target i <=? 4)%Z
  then 1 / inject_Z (2 ^ window_mismatches guide target i)
  else 0.

(** The sum of [f 0], ..., [f (k - 1)]. *)
Fixpoint sum_below (f : Z -> Q) (k : nat) : Q :=
  match k with
  | O => 0
  | S k' => sum_below f k' + f (Z.of_nat k')
  end.

(** The score as the specification words it: the sum runs over the offsets
    0, ..., n - L - 1. *)
Definition spec_off_target (guide target : str) : Q :=
  Py.round1
    (Qmin 100
       (20 * sum_below (window_term guide target)
               (Z.to_nat (Py.len target - Py.len guide)))).

(** Every weight of a row lies in [0, 1]. *)
Definition row_ok (w : weights) : Prop :=
  (0 <= wG w <= 1) /\ (0 <= wA w <= 1) /\ (0 <= wC w <= 1) /\
  (0 <= wT w <= 1).

(** The scan as the specification words it: every pair [(i, j)] with
    [j - i >= 5] up to [j = len], so that the regions ending at the last
    base and the whole guide are tested as well. *)
Definition spec_pairs (seq_len : Z) : list (Z * Z) :=
  flat_map (fun i => map (fun j => (i, j)) (Py.range (i + 5) (seq_len + 1)))
           (Py.range 0 (seq_len - 4)).

Definition spec_max_complementary (sequence : str) : Z :=
  fold_left
    (fun m ij =>
       let region := Py.slice sequence (fst ij) (snd ij) in
       if Py.contains region (rev_comp sequence) then Z.max m (Py.len region)
       else m)
    (spec_pairs (Py.len sequence)) 0%Z.

Definition spec_self_complementarity_score (sequence : str) : Q :=
  complementarity_penalty (spec_max_complementary sequence).

(** * The other functions of the sources *)

(** The exceptions the functions below can raise, and a result that is
    either a value or a raised exception. *)
Inductive exn := KeyError | IndexError | ZeroDivisionError.

Inductive res (A : Type) :=
| Ok (a : A)
| Raise (e : exn).

Arguments Ok {A} a.
Arguments Raise {A} e.

(** ** sequence_tools.py, continued *)

(** [round(stability, 2)] of an [int] is that [int]. *)
Definition simple_structure_estimation (sequence : str) : Z :=
  let gc_pairs := Z.min (Py.count "G" sequence) (Py.count "C" sequence) in
  let at_pairs := Z.min (Py.count "A" sequence) (Py.count "T" sequence) in
  let stability := (- (gc_pairs * 3 + at_pairs * 2))%Z in
  stability.

(** The dictionary [analyze_structure_details] returns. *)
Record structure_details := mk_structure_details {
  gc_pairs : Z;
  at_pairs : Z;
  stability : string
}.

Definition analyze_structure_details (sequence : str) : structure_details :=
  let gc_count := (Py.count "G" sequence + Py.count "C" sequence)%Z in
  let at_count := (Py.count "A" sequence + Py.count "T" sequence)%Z in
  {| gc_pairs := gc_count;
     at_pairs := at_count;
     stability :=
       if Py.Qlt_bool (inject_Z (Py.len sequence) / 2) (inject_Z gc_count)
       then "High"
       else if Py.Qlt_bool (inject_Z (Py.len sequence) / 3)
                           (inject_Z gc_count)
       then "Medium"
       else "Low" |}.

(** The table [weights] of [calculate_position_score]: [weights[base]] is
    a list of 20 numbers, and a base outside the table is a [KeyError]. *)
Definition position_weights (base : ascii) : option (list Q) :=
  if Ascii.eqb base "G" then
    Some [0.8; 0.6; 0.7; 0.5; 0.6; 0.7; 0.8; 0.9; 0.8; 0.7;
          0.6; 0.5; 0.4; 0.3; 0.2; 0.1; 0.2; 0.3; 0.4; 0.5]
  else if Ascii.eqb base "A" then
    Some [0.2; 0.3; 0.4; 0.5; 0.6; 0.7; 0.8; 0.7; 0.6; 0.5;
          0.4; 0.3; 0.2; 0.1; 0.2; 0.3; 0.4; 0.5; 0.6; 0.7]
  else if Ascii.eqb base "T" then
    Some [0.7; 0.6; 0.5; 0.4; 0.3; 0.2; 0.1; 0.2; 0.3; 0.4;
          0.5; 0.6; 0.7; 0.8; 0.9; 0.8; 0.7; 0.6; 0.5; 0.4]
  else if Ascii.eqb base "C" then
    Some [0.3; 0.4; 0.5; 0.6; 0.7; 0.8; 0.9; 0.8; 0.7; 0.6;
          0.5; 0.4; 0.3; 0.2; 0.1; 0.2; 0.3; 0.4; 0.5; 0.6]
  else None.

(** [enumerate(s)] *)
Definition enumerate {A} (s : list A) : list (Z * A) :=
  combine (Py.range 0 (Py.len s)) s.

(** One turn of the loop of [calculate_position_score],
    [score += weights[base][i]]: the base is looked up first, then the
    index; an exception ends the loop. *)
Definition position_step (acc : res Q) (ib : Z * ascii) : res Q :=
  match acc with
  | Raise e => Raise e
  | Ok score =>
      match position_weights (snd ib) with
      | None => Raise KeyError
      | Some row =>
          match Py.item row (fst ib) with
          | None => Raise IndexError
          | Some w => Ok (score + w)
          end
      end
  end.

Definition position_sum (sequence : str) : res Q :=
  fold_left position_step (enumerate sequence) (Ok 0).

Definition calculate_position_score (sequence : str) : res Q :=
  match position_sum sequence with
  | Raise e => Raise e
  | Ok score =>
      if (Py.len sequence =? 0)%Z then Raise ZeroDivisionError
      else Ok (score / inject_Z (Py.len sequence))
  end.

(** [complement[base]] of [check_self_complementarity]: a base outside the
    dictionary is a [KeyError]. *)
Definition complement_strict (base : ascii) : option ascii :=
  if Ascii.eqb base "A" then Some "T"%char
  else if Ascii.eqb base "T" then Some "A"%char
  else if Ascii.eqb base "G" then Some "C"%char
  else if Ascii.eqb base "C" then Some "G"%char
  else None.

(** [''.join(complement[base] for base in l)]; [None] is the [KeyError]. *)
Fixpoint complement_all (l : str) : option str :=
  match l with
  | [] => Some []
  | base :: l' =>
      match complement_strict base, complement_all l' with
      | Some c, Some r => Some (c :: r)
      | _, _ => None
      end
  end.

(** The pairs [(i, j)] of the loops of [check_self_complementarity]. *)
Definition scanned_pairs3 (seq_len : Z) : list (Z * Z) :=
  flat_map (fun i => map (fun j => (i, j)) (Py.range (i + 3) seq_len))
           (Py.range 0 (seq_len - 3)).

Definition check_self_complementarity (sequence : str) : res Q :=
  match complement_all (rev sequence) with
  | None => Raise KeyError
  | Some rev_comp =>
      let max_complementary :=
        fold_left
          (fun max_complementary ij =>
             if Py.contains (Py.slice sequence (fst ij) (snd ij)) rev_comp
             then Z.max max_complementary (snd ij - fst ij)
             else max_complementary)
          (scanned_pairs3 (Py.len sequence)) 0%Z in
      if (Py.len sequence =? 0)%Z then Raise ZeroDivisionError
      else Ok (inject_Z max_complementary / inject_Z (Py.len sequence))
  end.

(** The candidate dictionaries after [predict_grna_efficiency].  The
    function stores the position score under the key ['position'], the key
    under which [design_grnas] stored the start index, so that entry is now
    a score. *)
Record scored_grna := mk_scored_grna {
  sg_sequence : str;
  sg_pam : str;
  sg_position : Q;
  sg_gc_content : Q;
  sg_efficiency_score : Q;
  sg_gc_score : Q;
  sg_self_complementarity : Q;
  sg_homopolymer : Q;
  sg_off_target_score : option Q
}.

Definition predict_grna_efficiency (grnas : list grna) : list scored_grna :=
  map (fun grna =>
         let scores := calculate_all_scores (sequence grna) in
         {| sg_sequence := sequence grna;
            sg_pam := pam grna;
            sg_position := s_position scores;
            sg_gc_content := gc_content grna;
            sg_efficiency_score := s_final_score scores;
            sg_gc_score := s_gc_score scores;
            sg_self_complementarity := s_self_complementarity scores;
            sg_homopolymer := s_homopolymer scores;
            sg_off_target_score := off_target_score grna |})
      grnas.

(** [check_off_targets] on the dictionaries [predict_grna_efficiency] has
    extended: it reads ['sequence'] and sets ['off_target_score']. *)
Definition check_off_targets_scored (grnas : list scored_grna)
  (target_sequence : str) : list scored_grna :=
  map (fun g =>
         {| sg_sequence := sg_sequence g;
            sg_pam := sg_pam g;
            sg_position := sg_position g;
            sg_gc_content := sg_gc_content g;
            sg_efficiency_score := sg_efficiency_score g;
            sg_gc_score := sg_gc_score g;
            sg_self_complementarity := sg_self_complementarity g;
            sg_homopolymer := sg_homopolymer g;
            sg_off_target_score :=
              Some (off_target (sg_sequence g) target_sequence) |})
      grnas.

(** ** app.py *)

(** What [process_single_sequence] shows: the message, and the candidates
    handed to [display_grna_results] where there are any. *)
Inductive outcome :=
| EnterSequence                               (* "Please enter a DNA sequence" *)
| InvalidCharacters                           (* "Invalid characters found..." *)
| NoPamSites                                  (* "No ... PAM sites found" *)
| NoSuitableGuides                            (* "No suitable guide RNAs found..." *)
| ShowingAll (grnas : list scored_grna)       (* "Showing all n candidates." *)
| NoneMeetCriteria (grnas : list scored_grna) (* "No guides meet the criteria. Showing all..." *)
| Found (filtered_grnas : list scored_grna).  (* "Found n guides meeting criteria." *)

(** [set(s).issubset({'A', 'T', 'G', 'C'})] *)
Definition only_ATGC (s : str) : bool :=
  forallb (fun c => existsb (Ascii.eqb c) (py "ATGC")) s.

(** The test of the list comprehension that filters the candidates;
    ['off_target_score'] is present on every dictionary at that point.
    The efficiency score is compared over the rationals: where binary64
    rounds the weighted sum to just below a threshold it equals exactly,
    the source keeps the candidate out and this test keeps it in.  That
    changes which list is shown, not what holds of a shown candidate. *)
Definition meets_criteria (efficiency_threshold max_off_targets : Q)
  (g : scored_grna) : bool :=
  match sg_off_target_score g with
  | Some off => Qle_bool efficiency_threshold (sg_efficiency_score g) &&
                Qle_bool off max_off_targets
  | None => false
  end.

(** [check_secondary] is not used by the function.  The [KeyError] of
    [find_pam_sites] is not caught. *)
Definition process_single_sequence (sequence : str) (pam_type : string)
  (gc_min gc_max efficiency_threshold max_off_targets : Q)
  (show_all check_secondary : bool) : res outcome :=
  let clean_sequence := clean sequence in
  match clean_sequence with
  | [] => Ok EnterSequence
  | _ :: _ =>
      if negb (only_ATGC clean_sequence) then Ok InvalidCharacters
      else
        match find_pam_sites clean_sequence pam_type with
        | None => Raise KeyError
        | Some [] => Ok NoPamSites
        | Some pam_sites =>
            match design_grnas clean_sequence pam_sites
                               (gc_min / 100) (gc_max / 100) with
            | [] => Ok NoSuitableGuides
            | grnas0 =>
                let grnas := predict_grna_efficiency grnas0 in
                let grnas := check_off_targets_scored grnas clean_sequence in
                if negb show_all then
                  match filter (meets_criteria efficiency_threshold
                                               max_off_targets) grnas with
                  | [] => Ok (NoneMeetCriteria grnas)
                  | filtered_grnas => Ok (Found filtered_grnas)
                  end
                else Ok (ShowingAll grnas)
            end
        end
  end.

(** The stability analysis at the end of [plot_secondary_structure]; the
    drawing of the figure is left out. *)

(** [complement.get(base.replace('T', 'U'))] with the dictionary
    [{'A': 'U', 'T': 'A', 'G': 'C', 'C': 'G'}]. *)
Definition rna_complement (base : ascii) : option ascii :=
  let key := if Ascii.eqb base "T" then "U"%char else base in
  if Ascii.eqb key "A" then Some "U"%char
  else if Ascii.eqb key "T" then Some "A"%char
  else if Ascii.eqb key "G" then Some "C"%char
  else if Ascii.eqb key "C" then Some "G"%char
  else None.

(** The pairs [(i, j)] of the two generator loops. *)
Definition loop_pairs (seq_len : Z) : list (Z * Z) :=
  flat_map (fun i => map (fun j => (i, j)) (Py.range (i + 4) seq_len))
           (Py.range 0 seq_len).

(** [sum(1 for i ... for j ... if sequence[i] in bases and
    sequence[j] == complement.get(...))] *)
Definition count_pairs (sequence : str) (bases : str) : Z :=
  Py.len
    (filter
       (fun ij =>
          match Py.item sequence (fst ij), Py.item sequence (snd ij) with
          | Some a, Some b =>
              existsb (Ascii.eqb a) bases &&
              match rna_complement a with
              | Some c => Ascii.eqb b c
              | None => false
              end
          | _, _ => false
          end)
       (loop_pairs (Py.len sequence))).

(** The triple [(gc_pairs, au_pairs, stability)] the function prints. *)
Definition structure_stability (sequence : str) : Z * Z * string :=
  let sequence :=
    if (20 <? Py.len sequence)%Z then Py.slice sequence 0 20 else sequence in
  let gc_pairs := count_pairs sequence (py "GC") in
  let au_pairs := count_pairs sequence (py "AT") in
  let stability :=
    if (3 <? gc_pairs)%Z then "High"%string
    else if (2 <? gc_pairs + au_pairs)%Z then "Medium"%string
    else "Low"%string in
  (gc_pairs, au_pairs, stability).

(** The loop of [get_homopolymer_run] as a walk along the sequence:
    [prev] is [seq[i-1]], [rest] starts at [seq[i]], the state is
    [(max_run, current_run)]. *)
Fixpoint run_loop (base prev : ascii) (rest : str) (st : Z * Z) : Z * Z :=
  match rest with
  | [] => st
  | x :: rest' =>
      run_loop base x rest'
        (let '(max_run, current_run) := st in
         if Ascii.eqb x prev && Ascii.eqb prev base then
           (Z.max max_run (current_run + 1), current_run + 1)%Z
         else (max_run, 1%Z))
  end.

(** [w] ends [s]; [w] occurs in [s] as a contiguous run. *)
Definition suffix (w s : str) : Prop := exists a, s = a ++ w.

Definition infix (w s : str) : Prop := exists a b, s = a ++ w ++ b.

(** ** The off-target score in the words of the specification

    These notions are stated on the strings themselves, without the
    helpers of the embedding. *)

(** The Hamming distance between the guide and the window of the sequence
    that starts at offset [i]: the number of indices [k] of the guide with
    [guide[k] <> target[i + k]]. *)
Definition hamming_at (guide target : str) (i : nat) : nat :=
  List.length
    (filter
       (fun k =>
          match nth_error guide k, nth_error target (i + k) with
          | Some a, Some b => negb (Ascii.eqb a b)
          | _, _ => false
          end)
       (seq 0 (List.length guide))).

(** What the window at offset [i] contributes: [1 / 2^m] for a Hamming
    distance [m <= 4], nothing beyond. *)
Definition hamming_term (guide target : str) (i : nat) : Q :=
  if (hamming_at guide target i <=? 4)%nat
  then 1 / inject_Z (2 ^ Z.of_nat (hamming_at guide target i))
  else 0.

(** The sum of [f 0], ..., [f (k - 1)]. *)
Fixpoint sum_upto (f : nat -> Q) (k : nat) : Q :=
  match k with
  | O => 0
  | S k' => sum_upto f k' + f k'
  end.

(** The sum over the offsets 0, ..., n - L - 1. *)
Definition hamming_sum (guide target : str) : Q :=
  sum_upto (hamming_term guide target)
           (List.length target - List.length guide).

(** [r] is [x] rounded to one decimal place: a whole number of tenths at
    distance at most 1/20 from [x], the even one when [x] lies half-way
    between two of them. *)
Definition rounds_to_tenth (x r : Q) : Prop :=
  exists z : Z,
    r == inject_Z z / 10 /\
    r - (1 # 20) <= x /\ x <= r + (1 # 20) /\
    ((x == r - (1 # 20) \/ x == r + (1 # 20)) -> Z.even z = true).

(** Proof of [dna] for a literal. *)
Ltac dna_tac :=
  unfold dna, py; simpl;
  repeat (apply Forall_cons; [unfold dna_base; auto 6|]); apply Forall_nil.

(** Division by one of the numeric constants of the source, for [lra]. *)
Ltac const_div :=
  unfold Qdiv;
  change (/ 0.45) with (100 # 45);
  change (/ 0.35) with (100 # 35);
  change (/ 7) with (1 # 7);
  change (/ 2) with (1 # 2).

(** * Properties *)

(** ** Ranges, slices and folds *)

Lemma range_In (lo hi i : Z) :
  In i (Py.range lo hi) <-> (lo <= i < hi)%Z.
Proof.
  unfold Py.range. rewrite in_map_iff. split.
  - intros [k [<- Hk]]. apply in_seq in Hk. lia.
  - intros H. exists (Z.to_nat (i - lo)). split; [lia|].
    apply in_seq. lia.
Qed.

Lemma range_nil (lo hi : Z) : (hi <= lo)%Z -> Py.range lo hi = [].
Proof.
  intros H. unfold Py.range.
  replace (Z.to_nat (hi - lo)) with 0%nat by lia. reflexivity.
Qed.

Lemma range_snoc (lo hi : Z) :
  (lo <= hi)%Z -> Py.range lo (hi + 1) = Py.range lo hi ++ [hi].
Proof.
  intros H. unfold Py.range.
  replace (Z.to_nat (hi + 1 - lo)) with (Z.to_nat (hi - lo) + 1)%nat by lia.
  rewrite seq_app, map_app. simpl. do 2 f_equal. lia.
Qed.

Lemma len_nonneg {A} (s : list A) : (0 <= Py.len s)%Z.
Proof. unfold Py.len. lia. Qed.

Lemma slice_length {A} (s : list A) (lo hi : Z) :
  (0 <= lo <= hi)%Z -> (hi <= Py.len s)%Z ->
  Py.len (Py.slice s lo hi) = (hi - lo)%Z.
Proof.
  intros H1 H2. unfold Py.slice, Py.slice_index, Py.len in *.
  destruct (Z.ltb_spec lo 0); [lia|].
  destruct (Z.ltb_spec hi 0); [lia|].
  rewrite length_firstn, length_skipn. lia.
Qed.

Lemma slice_nonneg {A} (s : list A) (lo hi : Z) :
  (0 <= lo)%Z -> (0 <= hi)%Z ->
  Py.slice s lo hi =
  firstn (Z.to_nat hi - Z.to_nat lo) (skipn (Z.to_nat lo) s).
Proof.
  intros H1 H2. unfold Py.slice, Py.slice_index.
  destruct (Z.ltb_spec lo 0); [lia|].
  destruct (Z.ltb_spec hi 0); [lia|].
  pose proof (len_nonneg s) as Hn. unfold Py.len in *.
  destruct (Z.le_gt_cases lo (Z.of_nat (List.length s))) as [Hl|Hl].
  - rewrite (Z.min_l lo) by lia.
    destruct (Z.le_gt_cases hi (Z.of_nat (List.length s))) as [Hh|Hh].
    + rewrite Z.min_l by lia. f_equal. lia.
    + rewrite Z.min_r by lia.
      rewrite !firstn_all2; trivial; rewrite length_skipn; lia.
  - rewrite (Z.min_r lo) by lia.
    rewrite !skipn_all2 by lia. now rewrite !firstn_nil.
Qed.

(** ** PAM search *)

Lemma clean_dna (s : str) : dna s -> clean s = s.
Proof.
  unfold clean, Py.upper, Py.remove.
  induction 1 as [|c s Hc Hs IH]; [reflexivity|].
  simpl in *.
  destruct Hc as [-> | [-> | [-> | ->]]]; simpl; now rewrite IH.
Qed.

Lemma matches_at_cons (a : Re.atom) (p : list Re.atom) (s : str) :
  Re.matches_at (a :: p) s = true ->
  exists c s', s = c :: s' /\ Re.atom_matches a c = true /\
               Re.matches_at p s' = true.
Proof.
  destruct s as [|c s']; simpl; [discriminate|].
  intros H. apply andb_true_iff in H. now exists c, s'.
Qed.

Lemma item_skipn {A} (s : list A) (i : Z) (k : nat) (pre rest : list A) :
  (0 <= i)%Z -> skipn (Z.to_nat i) s = pre ++ rest ->
  (k < List.length pre)%nat ->
  Py.item s (i + Z.of_nat k) = nth_error pre k.
Proof.
  intros Hi Hs Hk. unfold Py.item.
  assert (Hn : nth_error s (Z.to_nat i + k) = nth_error pre k).
  { rewrite <- nth_error_skipn, Hs. now apply nth_error_app1. }
  assert (Hlt : (Z.to_nat i + k < List.length s)%nat).
  { apply nth_error_Some. rewrite Hn. now apply nth_error_Some. }
  unfold Py.len.
  destruct (Z.leb_spec 0 (i + Z.of_nat k)); [|lia].
  destruct (Z.ltb_spec (i + Z.of_nat k) (Z.of_nat (List.length s))); [|lia].
  simpl. rewrite <- Hn. f_equal. lia.
Qed.

Lemma finditer_lookahead_In (p : list Re.atom) (s : str) (i : Z) :
  In i (Re.finditer_lookahead p s) <->
  (0 <= i <= Py.len s)%Z /\ Re.matches_at p (skipn (Z.to_nat i) s) = true.
Proof.
  unfold Re.finditer_lookahead. rewrite filter_In, range_In.
  intuition lia.
Qed.

Lemma class_AG (c : ascii) :
  Re.atom_matches (Re.Class (py "AG")) c = true ->
  c = "A"%char \/ c = "G"%char.
Proof.
  simpl. rewrite !orb_true_iff, !Ascii.eqb_eq. intuition discriminate.
Qed.

Lemma class_GA (c : ascii) :
  Re.atom_matches (Re.Class (py "GA")) c = true ->
  c = "G"%char \/ c = "A"%char.
Proof.
  simpl. rewrite !orb_true_iff, !Ascii.eqb_eq. intuition discriminate.
Qed.

(** What the SaCas9 pattern of the source guarantees at a reported site:
    the third base is G or A, the fourth and fifth are A or G, the sixth
    is T. *)
Lemma find_pam_sites_SaCas9_sound (s : str) (sites : list Z) (i : Z) :
  find_pam_sites s "SaCas9 (NNGRRT)" = Some sites -> In i sites ->
  exists b1 b2 b3 b4 b5,
    Py.slice (clean s) i (i + 6) = [b1; b2; b3; b4; b5; "T"%char] /\
    (b3 = "G"%char \/ b3 = "A"%char) /\
    (b4 = "A"%char \/ b4 = "G"%char) /\
    (b5 = "A"%char \/ b5 = "G"%char).
Proof.
  unfold find_pam_sites. simpl. intros [= <-] Hin.
  apply finditer_lookahead_In in Hin. destruct Hin as [Hi Hm].
  apply matches_at_cons in Hm. destruct Hm as (b1 & r1 & E1 & _ & Hm).
  apply matches_at_cons in Hm. destruct Hm as (b2 & r2 & -> & _ & Hm).
  apply matches_at_cons in Hm. destruct Hm as (b3 & r3 & -> & H3 & Hm).
  apply matches_at_cons in Hm. destruct Hm as (b4 & r4 & -> & H4 & Hm).
  apply matches_at_cons in Hm. destruct Hm as (b5 & r5 & -> & H5 & Hm).
  apply matches_at_cons in Hm. destruct Hm as (b6 & r6 & -> & H6 & _).
  simpl in H6. apply Ascii.eqb_eq in H6. subst b6.
  exists b1, b2, b3, b4, b5. split.
  - rewrite slice_nonneg by lia. rewrite E1.
    replace (Z.to_nat (i + 6) - Z.to_nat i)%nat with 6%nat by lia.
    reflexivity.
  - auto using class_AG, class_GA.
Qed.

(** C1.  Under the SaCas9 profile the source reports position 0 of
    "AAAAAT", a 6-mer whose third base is A and not G. *)
Theorem find_pam_sites_SaCas9_third_base_A :
  find_pam_sites (py "AAAAAT") "SaCas9 (NNGRRT)" = Some [0%Z] /\
  dna (py "AAAAAT") /\
  Py.item (py "AAAAAT") 2 = Some "A"%char /\
  Py.item (py "AAAAAT") 2 <> Some "G"%char.
Proof.
  split; [reflexivity|]. split.
  - dna_tac.
  - split; [reflexivity|discriminate].
Qed.

(** ** Guide extraction *)

Lemma design_grnas_filter (seq : str) (sites : list Z) (gc_min gc_max : Q) :
  design_grnas seq sites gc_min gc_max =
  map (grna_at seq) (filter (keeps seq gc_min gc_max) sites).
Proof.
  unfold design_grnas.
  enough (G : forall acc,
    fold_left
      (fun grnas site =>
         if (20 <=? site)%Z then
           let grna_seq := Py.slice seq (site - 20) site in
           let gc_content := gc_fraction grna_seq in
           if Qle_bool gc_min gc_content && Qle_bool gc_content gc_max then
             grnas ++ [grna_at seq site]
           else grnas
         else grnas) sites acc
    = acc ++ map (grna_at seq) (filter (keeps seq gc_min gc_max) sites))
    by apply (G []).
  induction sites as [|site sites IH]; intros acc; simpl.
  - now rewrite app_nil_r.
  - rewrite IH. unfold keeps.
    destruct (20 <=? site)%Z; simpl; [|reflexivity].
    destruct (Qle_bool gc_min _ && Qle_bool _ gc_max); simpl;
      [now rewrite <- app_assoc | reflexivity].
Qed.

Lemma design_grnas_In (seq : str) (sites : list Z) (gc_min gc_max : Q)
  (c : grna) :
  In c (design_grnas seq sites gc_min gc_max) <->
  exists site, c = grna_at seq site /\ In site sites /\ (20 <= site)%Z /\
               gc_min <= gc_content c /\ gc_content c <= gc_max.
Proof.
  rewrite design_grnas_filter, in_map_iff. split.
  - intros (site & <- & Hin). apply filter_In in Hin.
    destruct Hin as [Hin Hk]. unfold keeps in Hk.
    rewrite !andb_true_iff, !Qle_bool_iff, Z.leb_le in Hk.
    exists site. simpl. tauto.
  - intros (site & -> & Hin & H20 & Hlo & Hhi).
    exists site. split; [reflexivity|]. apply filter_In. split; [assumption|].
    unfold keeps. rewrite !andb_true_iff, !Qle_bool_iff, Z.leb_le.
    simpl in *. tauto.
Qed.

Lemma count_GC_le (s : str) :
  (0 <= Py.count "G" s + Py.count "C" s <= Py.len s)%Z.
Proof.
  unfold Py.count, Py.len.
  induction s as [|c s IH]; [simpl; lia|].
  cbn [filter].
  destruct (Ascii.eqb "G" c) eqn:E1; destruct (Ascii.eqb "C" c) eqn:E2;
    cbn [List.length]; try lia.
  apply Ascii.eqb_eq in E1, E2. rewrite <- E1 in E2. discriminate E2.
Qed.

Lemma gc_fraction_bounds (s : str) : 0 <= gc_fraction s <= 1.
Proof.
  unfold gc_fraction. pose proof (count_GC_le s) as H.
  pose proof (len_nonneg s) as Hn.
  destruct (Z.eqb_spec (Py.len s) 0) as [|Hz]; [split; discriminate|].
  assert (Hpos : 0 < inject_Z (Py.len s))
    by (rewrite <- (Zlt_Qlt 0); lia).
  split.
  - apply Qle_shift_div_l; [assumption|].
    rewrite Qmult_0_l. rewrite <- (Zle_Qle 0). lia.
  - apply Qle_shift_div_r; [assumption|].
    rewrite Qmult_1_l. rewrite <- Zle_Qle. lia.
Qed.

(** C4, as stated, fails: for SaCas9 the site 20 of
    "ACGTACGTACGTACGTACGTAAGAAT" matches the 6-mer "AAGAAT", and the
    candidate carries "AAG". *)
Lemma design_grnas_pam_SaCas9_truncated :
  dna (py "ACGTACGTACGTACGTACGTAAGAAT") /\
  ~ pam_is_full_match "SaCas9 (NNGRRT)" (py "ACGTACGTACGTACGTACGTAAGAAT") 0 1.
Proof.
  split; [dna_tac|]. intros H.
  specialize (H _ _ (grna_at (py "ACGTACGTACGTACGTACGTAAGAAT") 20)
                eq_refl eq_refl).
  assert (Hin : In (grna_at (py "ACGTACGTACGTACGTACGTAAGAAT") 20)
                  (design_grnas (py "ACGTACGTACGTACGTACGTAAGAAT") [20%Z] 0 1))
    by (left; reflexivity).
  specialize (H Hin). vm_compute in H. discriminate H.
Qed.

(** C4, amended.  [design_grnas] takes no profile: the [pam] attribute of
    every candidate is the slice [sequence[site:site+3]] at its PAM site
    [site = position + 20], whatever the profile; for sites found under
    SpCas9 in a DNA sequence this is the whole matched 3-mer, some base
    followed by "GG". *)
Theorem design_grnas_pam (seq : str) (sites : list Z) (gc_min gc_max : Q)
  (c : grna) :
  In c (design_grnas seq sites gc_min gc_max) ->
  In (position c + 20)%Z sites /\
  pam c = Py.slice seq (position c + 20) (position c + 20 + 3) /\
  (dna seq -> find_pam_sites seq "SpCas9 (NGG)" = Some sites ->
   exists n, pam c = [n; "G"%char; "G"%char]).
Proof.
  intros Hc. apply design_grnas_In in Hc.
  destruct Hc as (site & -> & Hin & H20 & _). simpl.
  replace (site - 20 + 20)%Z with site by lia.
  split; [assumption|]. split; [reflexivity|].
  intros Hdna Hsites. unfold find_pam_sites in Hsites. simpl in Hsites.
  injection Hsites as <-. rewrite clean_dna in Hin by assumption.
  apply finditer_lookahead_In in Hin. destruct Hin as [Hi Hm].
  apply matches_at_cons in Hm. destruct Hm as (n & r1 & E & _ & Hm).
  apply matches_at_cons in Hm. destruct Hm as (g1 & r2 & -> & H1 & Hm).
  apply matches_at_cons in Hm. destruct Hm as (g2 & r3 & -> & H2 & _).
  simpl in H1, H2. apply Ascii.eqb_eq in H1, H2. subst g1 g2.
  exists n. rewrite slice_nonneg by lia. rewrite E.
  replace (Z.to_nat (site + 3) - Z.to_nat site)%nat with 3%nat by lia.
  reflexivity.
Qed.

Lemma design_grnas_pam_witness :
  In (grna_at (py "ACGTACGTACGTACGTACGTAGG") 20)
     (design_grnas (py "ACGTACGTACGTACGTACGTAGG") [20%Z] 0 1) /\
  pam (grna_at (py "ACGTACGTACGTACGTACGTAGG") 20) = py "AGG" /\
  exists n, pam (grna_at (py "ACGTACGTACGTACGTACGTAGG") 20)
            = [n; "G"%char; "G"%char].
Proof.
  assert (Hin : In (grna_at (py "ACGTACGTACGTACGTACGTAGG") 20)
     (design_grnas (py "ACGTACGTACGTACGTACGTAGG") [20%Z] 0 1))
    by (left; reflexivity).
  split; [exact Hin|]. split; [reflexivity|].
  apply (design_grnas_pam (py "ACGTACGTACGTACGTACGTAGG") [20%Z] 0 1 _ Hin).
  - dna_tac.
  - reflexivity.
Defined.

(** C5, as stated, fails: the source only tests [site >= 20].  For the
    25-base sequence below and the position list [[30]] it returns a
    candidate whose span [10, 30) leaves the sequence and whose guide has
    15 bases. *)
Lemma design_grnas_span_overrun :
  ~ (forall (seq : str) (sites : list Z) (gc_min gc_max : Q) (c : grna),
       In c (design_grnas seq sites gc_min gc_max) ->
       span_in_bounds seq c /\ Py.len (sequence c) = 20%Z).
Proof.
  intros H.
  destruct (H (py "ACGTACGTACGTACGTACGTAAGAA") [30%Z] 0 1
              (grna_at (py "ACGTACGTACGTACGTACGTAAGAA") 30)) as [_ Hlen].
  - left. reflexivity.
  - vm_compute in Hlen. discriminate Hlen.
Qed.

(** C5, amended.  When every listed position is at most the length of the
    sequence (as every index [find_pam_sites] returns is), each candidate
    comes from a listed site [position + 20], its guide span lies within
    the sequence, and its guide is that span, 20 bases long; in particular
    a site below 20 yields no candidate. *)
Theorem design_grnas_span (seq : str) (sites : list Z) (gc_min gc_max : Q)
  (c : grna) :
  (forall site, In site sites -> (site <= Py.len seq)%Z) ->
  In c (design_grnas seq sites gc_min gc_max) ->
  In (position c + 20)%Z sites /\
  span_in_bounds seq c /\
  sequence c = Py.slice seq (position c) (position c + 20) /\
  Py.len (sequence c) = 20%Z.
Proof.
  intros Hsites Hc. apply design_grnas_In in Hc.
  destruct Hc as (site & -> & Hin & H20 & _).
  specialize (Hsites site Hin). unfold span_in_bounds. simpl.
  replace (site - 20 + 20)%Z with site by lia.
  repeat split; try assumption; try lia.
  rewrite slice_length; lia.
Qed.

Lemma design_grnas_span_witness :
  span_in_bounds (py "ACGTACGTACGTACGTACGTAGG")
                 (grna_at (py "ACGTACGTACGTACGTACGTAGG") 20) /\
  Py.len (sequence (grna_at (py "ACGTACGTACGTACGTACGTAGG") 20)) = 20%Z.
Proof.
  assert (Hs : forall site, In site [20%Z] ->
                 (site <= Py.len (py "ACGTACGTACGTACGTACGTAGG"))%Z).
  { intros site [<-|[]]. vm_compute. discriminate. }
  assert (Hin : In (grna_at (py "ACGTACGTACGTACGTACGTAGG") 20)
     (design_grnas (py "ACGTACGTACGTACGTACGTAGG") [20%Z] 0 1))
    by (left; reflexivity).
  destruct (design_grnas_span _ _ _ _ _ Hs Hin) as (_ & Hb & _ & Hl).
  split; assumption.
Defined.

(** The sites found by [find_pam_sites] are indices of the cleaned
    sequence. *)
Lemma find_pam_sites_in_range (seq : str) (pam_type : string)
  (sites : list Z) (site : Z) :
  find_pam_sites seq pam_type = Some sites -> In site sites ->
  (0 <= site <= Py.len (clean seq))%Z.
Proof.
  unfold find_pam_sites. destruct (pam_patterns pam_type); [|discriminate].
  intros [= <-] Hin. now apply finditer_lookahead_In in Hin.
Qed.

(** C6.  Every candidate's GC fraction is that of its guide and lies in
    [[gc_min, gc_max]], both ends included; with [gc_min > gc_max] nothing is
    returned; with the bounds 0.0 and 1.0 every listed site whose guide span
    lies within the sequence yields its candidate. *)
Theorem design_grnas_gc_filter (seq : str) (sites : list Z)
  (gc_min gc_max : Q) :
  (forall c, In c (design_grnas seq sites gc_min gc_max) ->
     gc_content c == gc_fraction (sequence c) /\
     gc_min <= gc_content c /\ gc_content c <= gc_max) /\
  (gc_max < gc_min -> design_grnas seq sites gc_min gc_max = []) /\
  (forall site, In site sites ->
     (0 <= site - 20)%Z -> (site <= Py.len seq)%Z ->
     In (grna_at seq site) (design_grnas seq sites 0.0 1.0)).
Proof.
  split; [|split].
  - intros c Hc. apply design_grnas_In in Hc.
    destruct Hc as (site & -> & _ & _ & Hlo & Hhi).
    split; [reflexivity|]. split; assumption.
  - intros Hlt.
    destruct (design_grnas seq sites gc_min gc_max) as [|c l] eqn:E;
      [reflexivity|exfalso].
    assert (Hc : In c (design_grnas seq sites gc_min gc_max))
      by (rewrite E; now left).
    apply design_grnas_In in Hc.
    destruct Hc as (site & _ & _ & _ & Hlo & Hhi).
    apply (Qlt_irrefl gc_min).
    eapply Qle_lt_trans; [|exact Hlt]. eapply Qle_trans; eassumption.
  - intros site Hin H20 _. apply design_grnas_In.
    exists site. split; [reflexivity|]. split; [assumption|].
    split; [lia|]. simpl.
    pose proof (gc_fraction_bounds (Py.slice seq (site - 20) site)) as [H0 H1].
    split; lra.
Qed.

Lemma design_grnas_gc_filter_witness :
  design_grnas (py "ACGTACGTACGTACGTACGTAGG") [20%Z] 0.6 0.4 = [] /\
  In (grna_at (py "ACGTACGTACGTACGTACGTAGG") 20)
     (design_grnas (py "ACGTACGTACGTACGTACGTAGG") [20%Z] 0.0 1.0).
Proof.
  destruct (design_grnas_gc_filter (py "ACGTACGTACGTACGTACGTAGG") [20%Z]
              0.6 0.4) as (_ & Hempty & Hall).
  split.
  - apply Hempty. reflexivity.
  - apply Hall.
    + left. reflexivity.
    + vm_compute. discriminate.
    + vm_compute. discriminate.
Defined.

(** ** Rounding *)

Lemma round_half_even_comp (x y : Q) :
  x == y -> Py.round_half_even x = Py.round_half_even y.
Proof.
  intros E. unfold Py.round_half_even.
  rewrite (Qfloor_comp _ _ E).
  assert (E' : x - inject_Z (Qfloor y) == y - inject_Z (Qfloor y))
    by (rewrite E; reflexivity).
  now rewrite (Qcompare_comp _ _ E' _ _ (Qeq_refl (1 # 2))).
Qed.

Lemma round1_comp (x y : Q) : x == y -> Py.round1 x = Py.round1 y.
Proof.
  intros E. unfold Py.round1. f_equal.
  apply round_half_even_comp. now rewrite E.
Qed.

Lemma round_half_even_floor (q : Q) :
  (Qfloor q <= Py.round_half_even q <= Qfloor q + 1)%Z.
Proof.
  unfold Py.round_half_even.
  destruct (q - inject_Z (Qfloor q) ?= 1 # 2); [destruct (Z.even _)| |]; lia.
Qed.

(** Rounding never passes an integer: a bound that is a whole number of
    tenths is kept. *)
Lemma round_half_even_le (q : Q) (z : Z) :
  q <= inject_Z z -> (Py.round_half_even q <= z)%Z.
Proof.
  intros Hq. pose proof (Qfloor_resp_le _ _ Hq) as Hf.
  rewrite Qfloor_Z in Hf.
  pose proof (round_half_even_floor q) as Hr.
  destruct (Z.eq_dec (Qfloor q) z) as [E|]; [|lia].
  unfold Py.round_half_even. pose proof (Qfloor_le q) as Hle.
  rewrite E in *.
  assert (Hlt : q - inject_Z z < 1 # 2) by lra.
  rewrite (proj1 (Qlt_alt _ _) Hlt). lia.
Qed.

Lemma round_half_even_ge (q : Q) (z : Z) :
  inject_Z z <= q -> (z <= Py.round_half_even q)%Z.
Proof.
  intros Hq. pose proof (Qfloor_resp_le _ _ Hq) as Hf.
  rewrite Qfloor_Z in Hf.
  pose proof (round_half_even_floor q). lia.
Qed.

Lemma round1_le (x : Q) (z : Z) : x <= inject_Z z -> Py.round1 x <= inject_Z z.
Proof.
  intros H. unfold Py.round1.
  assert (Hr : (Py.round_half_even (x * 10) <= z * 10)%Z).
  { apply round_half_even_le. rewrite inject_Z_mult.
    change (inject_Z 10) with 10. lra. }
  unfold Qle, inject_Z. simpl. lia.
Qed.

Lemma round1_ge (x : Q) (z : Z) : inject_Z z <= x -> inject_Z z <= Py.round1 x.
Proof.
  intros H. unfold Py.round1.
  assert (Hr : (z * 10 <= Py.round_half_even (x * 10))%Z).
  { apply round_half_even_ge. rewrite inject_Z_mult.
    change (inject_Z 10) with 10. lra. }
  unfold Qle, inject_Z. simpl. lia.
Qed.

(** ** Off-target estimate *)

Lemma mismatches_nonneg (x y : str) : (0 <= Py.mismatches x y)%Z.
Proof.
  revert y. induction x as [|a x IH]; intros [|b y]; simpl; try lia.
  specialize (IH y). destruct (Ascii.eqb a b); lia.
Qed.

Lemma mismatches_refl (x : str) : Py.mismatches x x = 0%Z.
Proof.
  induction x as [|a x IH]; simpl; [reflexivity|].
  now rewrite Ascii.eqb_refl, IH.
Qed.

Lemma window_term_nonneg (guide target : str) (i : Z) :
  0 <= window_term guide target i.
Proof.
  unfold window_term. destruct (_ <=? 4)%Z; [|discriminate].
  apply Qle_shift_div_l.
  - rewrite <- (Zlt_Qlt 0). apply Z.pow_pos_nonneg; [lia|].
    apply mismatches_nonneg.
  - rewrite Qmult_0_l. discriminate.
Qed.

Lemma sum_below_nonneg (f : Z -> Q) (k : nat) :
  (forall i, 0 <= f i) -> 0 <= sum_below f k.
Proof.
  intros Hf. induction k as [|k IH]; simpl; [discriminate|].
  specialize (Hf (Z.of_nat k)). lra.
Qed.

Lemma sum_below_ge (f : Z -> Q) (k : nat) (i : Z) :
  (forall j, 0 <= f j) -> (0 <= i < Z.of_nat k)%Z -> f i <= sum_below f k.
Proof.
  intros Hf. induction k as [|k IH]; intros Hi; [lia|]. simpl.
  destruct (Z.eq_dec i (Z.of_nat k)) as [->|Hne].
  - pose proof (sum_below_nonneg f k Hf). lra.
  - assert (H : f i <= sum_below f k) by (apply IH; lia).
    specialize (Hf (Z.of_nat k)). lra.
Qed.

(** The loop of [check_off_targets] computes that sum. *)
Lemma off_target_sum_spec (guide target : str) :
  off_target_sum guide target ==
  sum_below (window_term guide target)
            (Z.to_nat (Py.len target - Py.len guide)).
Proof.
  unfold off_target_sum, window_offsets.
  set (d := (Py.len target - Py.len guide)%Z).
  replace (Py.range 0 d) with (Py.range 0 (Z.of_nat (Z.to_nat d))).
  2:{ destruct (Z.le_gt_cases 0 d).
      - now rewrite Z2Nat.id.
      - rewrite (range_nil 0 d) by lia.
        replace (Z.to_nat d) with 0%nat by lia. reflexivity. }
  generalize (Z.to_nat d) as k. clear d.
  induction k as [|k IH]; [reflexivity|].
  rewrite Nat2Z.inj_succ, <- Z.add_1_r, range_snoc by lia.
  rewrite fold_left_app. simpl. fold (window_mismatches guide target (Z.of_nat k)).
  unfold window_term at 2.
  destruct (_ <=? 4)%Z; rewrite IH; ring.
Qed.

Lemma off_target_eq_spec (guide target : str) :
  off_target guide target = spec_off_target guide target.
Proof.
  unfold off_target, spec_off_target. apply round1_comp.
  apply Q.min_compat; [reflexivity|].
  rewrite off_target_sum_spec. ring.
Qed.

Lemma off_target_bounds (guide target : str) :
  0 <= off_target guide target <= 100.
Proof.
  unfold off_target.
  assert (H0 : 0 <= off_target_sum guide target).
  { rewrite off_target_sum_spec. apply sum_below_nonneg.
    apply window_term_nonneg. }
  split.
  - apply (round1_ge _ 0). apply Q.min_glb; [discriminate|].
    change (inject_Z 0) with 0. lra.
  - apply (round1_le _ 100). apply Q.le_min_l.
Qed.

Lemma window_offsets_In (guide target : str) (i : Z) :
  In i (window_offsets guide target) <->
  (0 <= i <= Py.len target - Py.len guide - 1)%Z.
Proof. unfold window_offsets. rewrite range_In. lia. Qed.

Lemma check_off_targets_In (grnas : list grna) (target : str) (g : grna) :
  In g (check_off_targets grnas target) ->
  off_target_score g = Some (off_target (sequence g) target).
Proof.
  unfold check_off_targets. rewrite in_map_iff.
  now intros (g0 & <- & _).
Qed.

(** A window without mismatch that the scan visits brings the score to 20
    at least. *)
Lemma off_target_self_match (guide target : str) (p : Z) :
  In p (window_offsets guide target) ->
  Py.slice target p (p + Py.len guide) = guide ->
  20 <= off_target guide target.
Proof.
  intros Hp Hs. apply window_offsets_In in Hp.
  unfold off_target. apply (round1_ge _ 20).
  apply Q.min_glb; [discriminate|].
  rewrite off_target_sum_spec.
  assert (H1 : window_term guide target p == 1).
  { unfold window_term, window_mismatches. rewrite Hs, mismatches_refl.
    reflexivity. }
  pose proof (sum_below_ge (window_term guide target)
                (Z.to_nat (Py.len target - Py.len guide)) p
                (window_term_nonneg guide target)) as Hge.
  assert (Hle : window_term guide target p <=
                sum_below (window_term guide target)
                  (Z.to_nat (Py.len target - Py.len guide)))
    by (apply Hge; lia).
  rewrite H1 in Hle. change (inject_Z 20) with 20. lra.
Qed.

(** A direct call with a guide that sits at the very end of the sequence:
    the scan stops one window short, so the guide is never aligned with
    itself.  For the 20-base sequence below, the candidate of the position
    list [[20]] is the whole sequence, it occurs at its recorded position 0,
    and it scores 0.0.  No site of [find_pam_sites] gives such a candidate:
    a site leaves the motif after the guide. *)
Lemma check_off_targets_misses_tail_guide :
  let seq := py "ACGTACGTACGTACGTACGT" in
  let c := grna_at seq 20 in
  design_grnas seq [20%Z] 0 1 = [c] /\
  Py.slice seq (position c) (position c + Py.len (sequence c)) = sequence c /\
  window_offsets (sequence c) seq = [] /\
  exists score,
    map off_target_score (check_off_targets [c] seq) = [Some score] /\
    score == 0 /\ ~ 20 <= score.
Proof.
  cbv zeta. split; [reflexivity|]. split; [reflexivity|].
  split; [reflexivity|].
  exists (0 # 10). split; [reflexivity|]. split; [reflexivity|].
  intros H. vm_compute in H. apply H. reflexivity.
Qed.


(** ** Scores *)

Lemma gc_score_bounds (s : str) : 0 <= gc_score s <= 1.
Proof.
  unfold gc_score, Py.Qlt_bool. pose proof (gc_fraction_bounds s) as [H0 H1].
  destruct (Qle_bool 0.45 (gc_fraction s)) eqn:E1;
  destruct (Qle_bool (gc_fraction s) 0.65) eqn:E2; simpl;
    try (split; discriminate).
  - apply Qle_bool_iff in E1.
    assert (H : ~ gc_fraction s <= 0.65)
      by (rewrite <- Qle_bool_iff, E2; discriminate).
    const_div. split; lra.
  - assert (H : ~ 0.45 <= gc_fraction s)
      by (rewrite <- Qle_bool_iff, E1; discriminate).
    const_div. split; lra.
  - assert (H : ~ 0.45 <= gc_fraction s)
      by (rewrite <- Qle_bool_iff, E1; discriminate).
    const_div. split; lra.
Qed.

Lemma complementarity_penalty_bounds (m : Z) :
  0 <= complementarity_penalty m <= 1.
Proof.
  unfold complementarity_penalty.
  destruct (Z.ltb_spec m 5); [split; discriminate|].
  destruct (Z.leb_spec 12 m); [split; discriminate|].
  assert (Ha : 0 <= inject_Z (m - 5)) by (rewrite <- (Zle_Qle 0); lia).
  assert (Hb : inject_Z (m - 5) <= 6) by (rewrite <- (Zle_Qle _ 6); lia).
  const_div. split; lra.
Qed.

Lemma t_penalty_bounds (run : Z) : 0 <= t_penalty run <= 1.
Proof.
  unfold t_penalty.
  destruct (Z.leb_spec run 2); [split; discriminate|].
  destruct (Z.leb_spec 4 run); [split; discriminate|].
  assert (Ha : 0 <= inject_Z (run - 2)) by (rewrite <- (Zle_Qle 0); lia).
  assert (Hb : inject_Z (run - 2) <= 1) by (rewrite <- (Zle_Qle _ 1); lia).
  const_div. split; lra.
Qed.

Lemma agc_penalty_bounds (run : Z) : 0 <= agc_penalty run <= 1.
Proof.
  unfold agc_penalty.
  destruct (Z.leb_spec run 3); [split; discriminate|].
  destruct (Z.leb_spec 5 run); [split; discriminate|].
  assert (Ha : 0 <= inject_Z (run - 3)) by (rewrite <- (Zle_Qle 0); lia).
  assert (Hb : inject_Z (run - 3) <= 1) by (rewrite <- (Zle_Qle _ 1); lia).
  const_div. split; lra.
Qed.

Lemma homopolymer_score_bounds (s : str) : 0 <= homopolymer_score s <= 1.
Proof.
  unfold homopolymer_score. cbv zeta.
  pose proof (t_penalty_bounds (get_homopolymer_run s "T")).
  pose proof (agc_penalty_bounds (get_homopolymer_run s "A")).
  pose proof (agc_penalty_bounds (get_homopolymer_run s "G")).
  pose proof (agc_penalty_bounds (get_homopolymer_run s "C")).
  split; lra.
Qed.

Lemma weights_get_bounds (w : weights) (base : ascii) :
  row_ok w -> 0 <= weights_get w base <= 1.
Proof.
  intros (HG & HA & HC & HT). unfold weights_get.
  repeat (destruct (Ascii.eqb base _); [assumption|]).
  split; discriminate.
Qed.

Lemma preferences_ok : Forall (fun pw => row_ok (snd pw)) preferences.
Proof.
  unfold preferences.
  repeat (apply Forall_cons;
          [unfold row_ok; simpl; repeat split; discriminate|]).
  apply Forall_nil.
Qed.

(** Invariant of the loop of [position_score]: the running score is between
    0 and the running count. *)
Lemma position_loop_invariant (s : str) (table : list (Z * weights))
  (score : Q) (count : Z) :
  Forall (fun pw => row_ok (snd pw)) table ->
  (0 <= count)%Z -> 0 <= score <= inject_Z count ->
  let '(score', count') :=
    fold_left
      (fun st pw =>
         let '(score, count) := st in
         let '(pos, w) := pw in
         if (pos <=? Py.len s)%Z then
           match Py.item s (pos - 1) with
           | Some base => (score + weights_get w base, (count + 1)%Z)
           | None => (score, count)
           end
         else (score, count))
      table (score, count) in
  (0 <= count')%Z /\ 0 <= score' <= inject_Z count'.
Proof.
  intros Htable. revert score count.
  induction Htable as [|[pos w] table Hw _ IH]; intros score count Hc Hs.
  - simpl. split; assumption.
  - cbn [fold_left]. simpl in Hw.
    destruct (pos <=? Py.len s)%Z; [|now apply IH].
    destruct (Py.item s (pos - 1)) as [base|]; [|now apply IH].
    apply IH; [lia|].
    pose proof (weights_get_bounds w base Hw).
    rewrite inject_Z_plus. change (inject_Z 1) with 1. split; lra.
Qed.

Lemma position_score_bounds (s : str) : 0 <= position_score s <= 1.
Proof.
  unfold position_score, position_totals.
  pose proof (position_loop_invariant s preferences 0 0 preferences_ok
                (Z.le_refl 0)) as H.
  destruct (fold_left _ preferences (0, 0%Z)) as [score count].
  destruct H as (Hc & H0 & H1); [split; discriminate|].
  destruct (Z.ltb_spec 0 count); [|split; discriminate].
  assert (Hpos : 0 < inject_Z count) by (rewrite <- (Zlt_Qlt 0); lia).
  split.
  - apply Qle_shift_div_l; [assumption|]. lra.
  - apply Qle_shift_div_r; [assumption|]. lra.
Qed.

Lemma self_complementarity_score_bounds (s : str) :
  0 <= self_complementarity_score s <= 1.
Proof. apply complementarity_penalty_bounds. Qed.

(** C8.  For a guide over {A,T,G,C} the four component scores lie in
    [0, 1], the final score is 0.25 gc_score + 0.25 self_complementarity +
    0.20 homopolymer + 0.30 position, and it lies in [0, 1]. *)
Theorem calculate_all_scores_bounds (s : str) :
  dna s ->
  let r := calculate_all_scores s in
  0 <= s_gc_score r <= 1 /\
  0 <= s_self_complementarity r <= 1 /\
  0 <= s_homopolymer r <= 1 /\
  0 <= s_position r <= 1 /\
  s_final_score r ==
    0.25 * s_gc_score r + 0.25 * s_self_complementarity r +
    0.20 * s_homopolymer r + 0.30 * s_position r /\
  0 <= s_final_score r <= 1.
Proof.
  intros _. cbv zeta. unfold calculate_all_scores. simpl.
  pose proof (gc_score_bounds s) as Hgc.
  pose proof (self_complementarity_score_bounds s) as Hsc.
  pose proof (homopolymer_score_bounds s) as Hhp.
  pose proof (position_score_bounds s) as Hps.
  repeat split; try tauto; try ring; lra.
Qed.

Lemma calculate_all_scores_bounds_witness :
  let r := calculate_all_scores (py "ATCGATCGATCGATCGATCG") in
  0 <= s_final_score r <= 1 /\ s_final_score r == 179 # 300.
Proof.
  cbv zeta. split.
  - apply (calculate_all_scores_bounds (py "ATCGATCGATCGATCGATCG")).
    dna_tac.
  - reflexivity.
Defined.

(** C9, as stated, fails: twenty G's have GC fraction 1.0, which is above
    0.65, and the score is not 1.0. *)
Lemma gc_score_all_G_not_one :
  ~ gc_score (py "GGGGGGGGGGGGGGGGGGGG") == 1.
Proof. intros H. vm_compute in H. discriminate H. Qed.

(** C9, amended.  For the guide of twenty G's the GC fraction is 1.0 and
    the GC score is (1 - 1.0) / 0.35 = 0.0. *)
Theorem gc_score_all_G :
  gc_fraction (py "GGGGGGGGGGGGGGGGGGGG") == 1 /\
  gc_score (py "GGGGGGGGGGGGGGGGGGGG") ==
    (1 - gc_fraction (py "GGGGGGGGGGGGGGGGGGGG")) / 0.35 /\
  gc_score (py "GGGGGGGGGGGGGGGGGGGG") == 0.
Proof. split; [reflexivity|]. split; reflexivity. Qed.

(** *** Self-complementarity *)

Lemma scanned_pairs_In (n i j : Z) :
  In (i, j) (scanned_pairs n) <->
  (0 <= i)%Z /\ (i + 5 <= j)%Z /\ (j <= n - 1)%Z.
Proof.
  unfold scanned_pairs. rewrite in_flat_map. split.
  - intros (i0 & Hi & Hj). apply range_In in Hi.
    apply in_map_iff in Hj. destruct Hj as (j0 & [= <- <-] & Hj).
    apply range_In in Hj. lia.
  - intros (Hi & Hj & Hn). exists i. split; [apply range_In; lia|].
    apply in_map_iff. exists j. split; [reflexivity|]. apply range_In. lia.
Qed.

(** C3.  The inner loop stops at [j = len - 1]: no region that ends at the
    last base is tested.  "AAATTT" is its own reverse complement; the
    source tests "AAATT" only and returns 1.0, where the maximum over all
    regions of 5 bases or more is 6 and gives 1 - 1/7. *)
Theorem self_complementarity_skips_final_base :
  let s := py "AAATTT" in
  dna s /\ rev_comp s = s /\
  scanned_pairs (Py.len s) = [(0, 5)%Z] /\
  spec_pairs (Py.len s) = [(0, 5)%Z; (0, 6)%Z; (1, 6)%Z] /\
  max_complementary s = 5%Z /\
  self_complementarity_score s == 1 /\
  spec_max_complementary s = 6%Z /\
  spec_self_complementarity_score s == 6 # 7 /\
  ~ self_complementarity_score s == spec_self_complementarity_score s.
Proof.
  cbv zeta. split; [dna_tac|].
  repeat (split; [reflexivity|]).
  intros H. vm_compute in H. discriminate H.
Qed.

(** C10.  The scan only visits pairs [(i, j)] with [i + 5 <= j <= len - 1];
    for a sequence of at most 5 characters there is none, the tracked
    maximum stays 0 and the score is 1.0. *)
Theorem self_complementarity_short (s : str) :
  (forall i j, In (i, j) (scanned_pairs (Py.len s)) ->
     (0 <= i)%Z /\ (i + 5 <= j)%Z /\ (j <= Py.len s - 1)%Z) /\
  ((Py.len s <= 5)%Z ->
     scanned_pairs (Py.len s) = [] /\
     max_complementary s = 0%Z /\
     self_complementarity_score s = 1).
Proof.
  split; [intros i j; apply scanned_pairs_In|].
  intros Hlen.
  assert (E : scanned_pairs (Py.len s) = []).
  { destruct (scanned_pairs (Py.len s)) as [|[i j] l] eqn:E; [reflexivity|].
    assert (Hin : In (i, j) (scanned_pairs (Py.len s)))
      by (rewrite E; now left).
    apply scanned_pairs_In in Hin. lia. }
  split; [exact E|].
  assert (Hm : max_complementary s = 0%Z)
    by (unfold max_complementary; now rewrite E).
  split; [exact Hm|].
  unfold self_complementarity_score. now rewrite Hm.
Qed.

Lemma self_complementarity_short_witness :
  (Py.len (py "AATTT") <= 5)%Z /\
  max_complementary (py "AATTT") = 0%Z /\
  self_complementarity_score (py "AATTT") = 1.
Proof.
  split; [vm_compute; discriminate|].
  destruct (self_complementarity_short (py "AATTT")) as [_ H].
  destruct H as (_ & Hm & Hs); [vm_compute; discriminate|].
  split; [exact Hm|exact Hs].
Defined.

(** * Further properties of the sources *)

(** ** PAM search, continued *)

Lemma range_sorted (lo hi : Z) : StronglySorted Z.lt (Py.range lo hi).
Proof.
  unfold Py.range. generalize (Z.to_nat (hi - lo)) as n.
  generalize 0%nat as a. intros a n. revert a.
  induction n as [|n IH]; intros a; simpl; constructor.
  - apply IH.
  - apply Forall_forall. intros x Hx. apply in_map_iff in Hx.
    destruct Hx as (k & <- & Hk). apply in_seq in Hk. lia.
Qed.

Lemma filter_sorted {A} (R : A -> A -> Prop) (f : A -> bool) (l : list A) :
  StronglySorted R l -> StronglySorted R (filter f l).
Proof.
  induction 1 as [|a l Hl IH Ha]; simpl; [constructor|].
  destruct (f a); [|assumption]. constructor; [assumption|].
  apply Forall_forall. intros x Hx. apply filter_In in Hx.
  rewrite Forall_forall in Ha. now apply Ha.
Qed.

Lemma matches_at_length (p : list Re.atom) (s : str) :
  Re.matches_at p s = true -> (List.length p <= List.length s)%nat.
Proof.
  revert s. induction p as [|a p IH]; intros [|c s]; simpl;
    try discriminate; try lia.
  intros H. apply andb_true_iff in H. destruct H as [_ H].
  apply IH in H. lia.
Qed.

Lemma matches_at_firstn (p : list Re.atom) (s : str) :
  Re.matches_at p s = true <->
  Forall2 (fun a c => Re.atom_matches a c = true) p
          (firstn (List.length p) s).
Proof.
  revert s. induction p as [|a p IH]; intros s; simpl.
  - split; [constructor|reflexivity].
  - destruct s as [|c s]; simpl.
    + split; [discriminate|]. intros H. inversion H.
    + rewrite andb_true_iff, IH. split.
      * intros [Ha Hp]. now constructor.
      * intros H. inversion H; subst. now split.
Qed.

Lemma pam_patterns_Some (pam_type : string) (pattern : list Re.atom) :
  pam_patterns pam_type = Some pattern -> (1 <= Py.len pattern)%Z.
Proof.
  unfold pam_patterns.
  destruct (String.eqb pam_type "SpCas9 (NGG)");
    [intros [= <-]; vm_compute; discriminate|].
  destruct (String.eqb pam_type "SaCas9 (NNGRRT)");
    [intros [= <-]; vm_compute; discriminate|].
  destruct (String.eqb pam_type "Cas12a (TTTV)");
    [intros [= <-]; vm_compute; discriminate|discriminate].
Qed.

(** [find_pam_sites] raises the [KeyError] for a profile name other than
    the three keys of its table. *)
Lemma find_pam_sites_KeyError (s : str) (pam_type : string) :
  find_pam_sites s pam_type = None <->
  pam_type <> "SpCas9 (NGG)"%string /\
  pam_type <> "SaCas9 (NNGRRT)"%string /\
  pam_type <> "Cas12a (TTTV)"%string.
Proof.
  unfold find_pam_sites, pam_patterns.
  destruct (String.eqb_spec pam_type "SpCas9 (NGG)");
    [split; [discriminate|tauto]|].
  destruct (String.eqb_spec pam_type "SaCas9 (NNGRRT)");
    [split; [discriminate|tauto]|].
  destruct (String.eqb_spec pam_type "Cas12a (TTTV)");
    [split; [discriminate|tauto]|].
  tauto.
Qed.

Lemma find_pam_sites_sorted_range_aux (s : str) (pam_type : string)
  (pattern : list Re.atom) (sites : list Z) :
  pam_patterns pam_type = Some pattern ->
  find_pam_sites s pam_type = Some sites ->
  StronglySorted Z.lt sites /\
  forall site, In site sites ->
    (0 <= site <= Py.len (clean s) - Py.len pattern)%Z.
Proof.
  unfold find_pam_sites. intros -> [= <-]. split.
  - apply filter_sorted, range_sorted.
  - intros site Hin. apply finditer_lookahead_In in Hin.
    destruct Hin as [Hi Hm]. apply matches_at_length in Hm.
    rewrite length_skipn in Hm. unfold Py.len in *. lia.
Qed.

(** X2.  The sites come in strictly ascending order, and at each of them
    the whole motif fits into the cleaned sequence: a site is at least 0 and
    at most the length minus the length of the motif. *)
Theorem find_pam_sites_sorted_in_range (s : str) (pam_type : string)
  (pattern : list Re.atom) (sites : list Z) :
  pam_patterns pam_type = Some pattern ->
  find_pam_sites s pam_type = Some sites ->
  StronglySorted Z.lt sites /\
  forall site, In site sites ->
    (0 <= site <= Py.len (clean s) - Py.len pattern)%Z.
Proof. apply find_pam_sites_sorted_range_aux. Qed.

Lemma find_pam_sites_sorted_in_range_witness :
  StronglySorted Z.lt [1%Z; 2%Z; 7%Z] /\
  forall site, In site [1%Z; 2%Z; 7%Z] ->
    (0 <= site <= Py.len (clean (py "ca ggg TTAGG")) - 3)%Z.
Proof.
  apply (find_pam_sites_sorted_in_range (py "ca ggg TTAGG") "SpCas9 (NGG)"
           [Re.Dot; Re.Lit "G"; Re.Lit "G"] [1%Z; 2%Z; 7%Z]);
    reflexivity.
Defined.

Lemma slice_firstn_skipn {A} (s : list A) (i k : Z) :
  (0 <= i)%Z -> (0 <= k)%Z ->
  Py.slice s i (i + k) = firstn (Z.to_nat k) (skipn (Z.to_nat i) s).
Proof.
  intros Hi Hk. rewrite slice_nonneg by lia. f_equal. lia.
Qed.

Lemma firstn_In {A} (n : nat) (l : list A) (x : A) :
  In x (firstn n l) -> In x l.
Proof.
  revert l. induction n as [|n IH]; intros [|a l]; simpl; try tauto.
  intros [H|H]; [now left|right; now apply IH].
Qed.

Lemma skipn_In {A} (n : nat) (l : list A) (x : A) :
  In x (skipn n l) -> In x l.
Proof.
  revert l. induction n as [|n IH]; intros [|a l]; simpl; try tauto.
  intros H. right. now apply IH.
Qed.

Lemma slice_incl {A} (s : list A) (lo hi : Z) (x : A) :
  In x (Py.slice s lo hi) -> In x s.
Proof.
  unfold Py.slice. intros H. apply firstn_In in H.
  now apply skipn_In in H.
Qed.

(** A position is reported exactly when the atoms of the pattern match the
    characters that start there, one by one. *)
Lemma find_pam_sites_In (s : str) (pam_type : string)
  (pattern : list Re.atom) (sites : list Z) (i : Z) :
  pam_patterns pam_type = Some pattern ->
  find_pam_sites s pam_type = Some sites ->
  In i sites <->
  (0 <= i)%Z /\
  Forall2 (fun a c => Re.atom_matches a c = true) pattern
          (Py.slice (clean s) i (i + Py.len pattern)).
Proof.
  intros Hp. pose proof (pam_patterns_Some _ _ Hp) as Hlen.
  unfold find_pam_sites. rewrite Hp. intros [= <-].
  rewrite finditer_lookahead_In, matches_at_firstn. split.
  - intros [Hi Hm]. split; [lia|].
    rewrite slice_firstn_skipn by (unfold Py.len; lia).
    unfold Py.len. now rewrite Nat2Z.id.
  - intros [Hi Hm].
    rewrite slice_firstn_skipn in Hm by (unfold Py.len; lia).
    unfold Py.len in Hm. rewrite Nat2Z.id in Hm. split; [|assumption].
    apply Forall2_length in Hm. rewrite length_firstn, length_skipn in Hm.
    unfold Py.len in *. lia.
Qed.

Lemma clean_no_newline (s : str) (c : ascii) :
  In c (clean s) -> Re.atom_matches Re.Dot c = true.
Proof.
  unfold clean, Py.remove. intros H. apply filter_In in H.
  simpl. tauto.
Qed.

(** X3.  Under SpCas9 a position is reported exactly when the two bases
    after it are "GG": every such position of the cleaned sequence is in the
    list, overlapping ones included, and no other. *)
Theorem find_pam_sites_SpCas9_iff (s : str) :
  exists sites,
    find_pam_sites s "SpCas9 (NGG)" = Some sites /\
    forall i, In i sites <->
      (0 <= i)%Z /\
      exists n, Py.slice (clean s) i (i + 3) = [n; "G"%char; "G"%char].
Proof.
  eexists. split; [reflexivity|]. intros i.
  rewrite (find_pam_sites_In s "SpCas9 (NGG)" _ _ i eq_refl eq_refl).
  change (Py.len [Re.Dot; Re.Lit "G"; Re.Lit "G"]) with 3%Z.
  split; intros [Hi H]; (split; [assumption|]).
  - inversion H as [|a1 n l1 w1 _ P1]; subst.
    inversion P1 as [|a2 g1 l2 w2 Hg1 P2]; subst.
    inversion P2 as [|a3 g2 l3 w3 Hg2 P3]; subst.
    inversion P3; subst. simpl in Hg1, Hg2.
    apply Ascii.eqb_eq in Hg1, Hg2. subst. now exists n.
  - destruct H as [n E].
    assert (Hn : In n (clean s))
      by (apply (slice_incl _ i (i + 3)); rewrite E; now left).
    rewrite E. repeat constructor. now apply (clean_no_newline s).
Qed.

(** X4.  Under Cas12a a position is reported exactly when "TTT" starts
    there and is followed by A, C or G; "TTTT" is no site. *)
Theorem find_pam_sites_Cas12a_iff (s : str) :
  exists sites,
    find_pam_sites s "Cas12a (TTTV)" = Some sites /\
    forall i, In i sites <->
      (0 <= i)%Z /\
      exists v, Py.slice (clean s) i (i + 4)
                = ["T"%char; "T"%char; "T"%char; v] /\
                (v = "A"%char \/ v = "C"%char \/ v = "G"%char).
Proof.
  eexists. split; [reflexivity|]. intros i.
  rewrite (find_pam_sites_In s "Cas12a (TTTV)" _ _ i eq_refl eq_refl).
  change (Py.len [Re.Lit "T"; Re.Lit "T"; Re.Lit "T"; Re.Class (py "ACG")])
    with 4%Z.
  split; intros [Hi H]; (split; [assumption|]).
  - inversion H as [|a1 t1 l1 w1 Ht1 P1]; subst.
    inversion P1 as [|a2 t2 l2 w2 Ht2 P2]; subst.
    inversion P2 as [|a3 t3 l3 w3 Ht3 P3]; subst.
    inversion P3 as [|a4 v l4 w4 Hv P4]; subst.
    inversion P4; subst. simpl in Ht1, Ht2, Ht3, Hv.
    apply Ascii.eqb_eq in Ht1, Ht2, Ht3. subst.
    exists v. split; [reflexivity|].
    rewrite !orb_true_iff, !Ascii.eqb_eq in Hv. intuition discriminate.
  - destruct H as (v & E & Hv). rewrite E.
    repeat constructor.
    destruct Hv as [-> | [-> | ->]]; reflexivity.
Qed.

Lemma upper_char_idem (c : ascii) :
  Py.upper_char (Py.upper_char c) = Py.upper_char c.
Proof. destruct c as [[] [] [] [] [] [] [] []]; reflexivity. Qed.

Lemma map_fixed {A} (f : A -> A) (l : list A) :
  Forall (fun x => f x = x) l -> map f l = l.
Proof. induction 1 as [|x l Hx _ IH]; simpl; congruence. Qed.

Lemma filter_idem {A} (f : A -> bool) (l : list A) :
  filter f (filter f l) = filter f l.
Proof.
  induction l as [|x l IH]; simpl; [reflexivity|].
  destruct (f x) eqn:E; simpl; [rewrite E|]; congruence.
Qed.

Lemma clean_upper (s : str) : Forall (fun x => Py.upper_char x = x) (clean s).
Proof.
  apply Forall_forall. intros x Hx. unfold clean, Py.remove, Py.upper in Hx.
  apply filter_In in Hx. destruct Hx as [Hx _].
  apply filter_In in Hx. destruct Hx as [Hx _].
  apply in_map_iff in Hx. destruct Hx as (c & <- & _).
  apply upper_char_idem.
Qed.

Lemma clean_idem (s : str) : clean (clean s) = clean s.
Proof.
  unfold clean at 1. unfold Py.upper.
  rewrite (map_fixed _ _ (clean_upper s)).
  unfold clean, Py.remove.
  set (f := fun x : ascii => negb (x =? " ")%char).
  set (g := fun x : ascii => negb (x =? Re.newline)%char).
  assert (C : forall l0, filter f (filter g l0) = filter g (filter f l0)).
  { induction l0 as [|x l0 IH]; simpl; [reflexivity|].
    destruct (f x) eqn:Ef, (g x) eqn:Eg; simpl;
      rewrite ?Ef, ?Eg; congruence. }
  rewrite (C (filter f (Py.upper s))), !filter_idem. reflexivity.
Qed.

(** X5.  Cleaning is idempotent, so the sites found in a raw input (any
    case, with blanks and line breaks) are those of its cleaned form, and
    they index the cleaned form: a raw input and its cleaned form give the
    same list. *)
Theorem find_pam_sites_clean (s : str) (pam_type : string) :
  clean (clean s) = clean s /\
  find_pam_sites (clean s) pam_type = find_pam_sites s pam_type.
Proof.
  split; [apply clean_idem|].
  unfold find_pam_sites. now rewrite clean_idem.
Qed.

(** ** Guide extraction, continued *)

(** X6.  Sites are handled one by one and in order: the candidates of a
    concatenated site list are those of the first part followed by those of
    the second, so the result never has more candidates than there are
    sites, duplicates of a site included. *)
Theorem design_grnas_app (seq : str) (sites1 sites2 : list Z)
  (gc_min gc_max : Q) :
  design_grnas seq (sites1 ++ sites2) gc_min gc_max =
    design_grnas seq sites1 gc_min gc_max ++
    design_grnas seq sites2 gc_min gc_max /\
  (List.length (design_grnas seq sites1 gc_min gc_max)
     <= List.length sites1)%nat.
Proof.
  rewrite !design_grnas_filter, filter_app, map_app. split; [reflexivity|].
  rewrite length_map. apply filter_length_le.
Qed.

(** X7.  Widening the GC window only adds candidates: every candidate
    returned for [[gc_min, gc_max]] is returned for any window that
    contains it. *)
Theorem design_grnas_window_mono (seq : str) (sites : list Z)
  (gc_min gc_max gc_min' gc_max' : Q) (c : grna) :
  gc_min' <= gc_min -> gc_max <= gc_max' ->
  In c (design_grnas seq sites gc_min gc_max) ->
  In c (design_grnas seq sites gc_min' gc_max').
Proof.
  intros Hlo Hhi Hc. apply design_grnas_In in Hc.
  destruct Hc as (site & E & Hin & H20 & H1 & H2).
  apply design_grnas_In. exists site. repeat split; try assumption; lra.
Qed.

Lemma design_grnas_window_mono_witness :
  In (grna_at (py "ACGTACGTACGTACGTACGTAGG") 20)
     (design_grnas (py "ACGTACGTACGTACGTACGTAGG") [20%Z] 0.3 0.7).
Proof.
  apply (design_grnas_window_mono _ _ 0.4 0.6 0.3 0.7).
  - discriminate.
  - discriminate.
  - left. reflexivity.
Defined.

(** ** Off-target estimate, continued *)

Lemma window_term_le_1 (guide target : str) (i : Z) :
  window_term guide target i <= 1.
Proof.
  unfold window_term. destruct (_ <=? 4)%Z; [|discriminate].
  pose proof (mismatches_nonneg guide
                (Py.slice target i (i + Py.len guide))) as Hm.
  fold (window_mismatches guide target i) in Hm.
  assert (Hp : (1 <= 2 ^ window_mismatches guide target i)%Z)
    by (apply (Z.pow_le_mono_r 2 0); lia).
  apply Qle_shift_div_r.
  - rewrite <- (Zlt_Qlt 0). lia.
  - rewrite Qmult_1_l. rewrite <- (Zle_Qle 1). lia.
Qed.

Lemma sum_below_le (f : Z -> Q) (k : nat) :
  (forall i, f i <= 1) -> sum_below f k <= inject_Z (Z.of_nat k).
Proof.
  intros Hf. induction k as [|k IH]; [discriminate|].
  cbn [sum_below]. rewrite Nat2Z.inj_succ, <- Z.add_1_r, inject_Z_plus.
  specialize (Hf (Z.of_nat k)). change (inject_Z 1) with 1. lra.
Qed.

Lemma sum_below_ext (f g : Z -> Q) (k : nat) :
  (forall i, (0 <= i < Z.of_nat k)%Z -> f i == g i) ->
  sum_below f k == sum_below g k.
Proof.
  induction k as [|k IH]; intros H; [reflexivity|].
  cbn [sum_below]. rewrite IH, (H (Z.of_nat k)) by (intros; try apply H; lia).
  reflexivity.
Qed.

Lemma slice_app_l {A} (t u : list A) (lo hi : Z) :
  (0 <= lo)%Z -> (0 <= hi <= Py.len t)%Z ->
  Py.slice (t ++ u) lo hi = Py.slice t lo hi.
Proof.
  intros Hlo Hhi. rewrite !slice_nonneg by lia. unfold Py.len in Hhi.
  destruct (Z.le_gt_cases hi lo) as [H|H].
  - replace (Z.to_nat hi - Z.to_nat lo)%nat with 0%nat by lia. reflexivity.
  - rewrite skipn_app, firstn_app, length_skipn.
    replace (Z.to_nat hi - Z.to_nat lo - (List.length t - Z.to_nat lo))%nat
      with 0%nat by lia.
    rewrite firstn_0, app_nil_r. reflexivity.
Qed.

(** X8.  Against a sequence that is not longer than the guide no window is
    visited and the attached score is 0.0, also when the sequence is the
    guide itself. *)
Theorem check_off_targets_short_target (grnas : list grna) (target : str)
  (g : grna) :
  In g (check_off_targets grnas target) ->
  (Py.len target <= Py.len (sequence g))%Z ->
  exists score, off_target_score g = Some score /\ score == 0.
Proof.
  intros Hin Hlen. apply check_off_targets_In in Hin.
  exists (off_target (sequence g) target). split; [assumption|].
  unfold off_target, off_target_sum, window_offsets.
  rewrite range_nil by lia. reflexivity.
Qed.

Lemma check_off_targets_short_target_witness :
  exists g score,
    In g (check_off_targets [grna_at (py "ACGTACGTACGTACGTACGTAGG") 20]
                            (py "ACGTACGTACGTACGTACGT")) /\
    off_target_score g = Some score /\ score == 0.
Proof.
  set (src := py "ACGTACGTACGTACGTACGTAGG").
  set (target := py "ACGTACGTACGTACGTACGT").
  set (g := {| sequence := sequence (grna_at src 20);
               pam := pam (grna_at src 20);
               position := position (grna_at src 20);
               gc_content := gc_content (grna_at src 20);
               off_target_score :=
                 Some (off_target (sequence (grna_at src 20)) target) |}).
  assert (Hin : In g (check_off_targets [grna_at src 20] target))
    by (left; reflexivity).
  assert (Hlen : (Py.len target <= Py.len (sequence g))%Z)
    by (vm_compute; discriminate).
  destruct (check_off_targets_short_target _ _ _ Hin Hlen) as (score & Hs & H0).
  exists g, score. split; [exact Hin|]. split; [exact Hs|exact H0].
Defined.

(** X9.  Every visited window adds at most 20 points: for a sequence of
    length n and a guide of length L <= n the score is at most
    20 * (n - L). *)
Theorem off_target_le_windows (guide target : str) :
  (Py.len guide <= Py.len target)%Z ->
  off_target guide target
    <= inject_Z (20 * (Py.len target - Py.len guide)).
Proof.
  intros Hlen. unfold off_target. apply round1_le.
  eapply Qle_trans; [apply Q.le_min_r|].
  rewrite off_target_sum_spec.
  pose proof (sum_below_le (window_term guide target)
                (Z.to_nat (Py.len target - Py.len guide))
                (window_term_le_1 guide target)) as H.
  rewrite Z2Nat.id in H by lia.
  rewrite inject_Z_mult. change (inject_Z 20) with 20. lra.
Qed.

Lemma off_target_le_windows_witness :
  off_target (py "ACGTACGTACGTACGTACGT") (py "ACGTACGTACGTACGTACGTAGG")
    <= inject_Z 60.
Proof.
  apply (off_target_le_windows (py "ACGTACGTACGTACGTACGT")
           (py "ACGTACGTACGTACGTACGTAGG")).
  vm_compute. discriminate.
Defined.

(** X10.  The last character of the scanned sequence is never read: for a
    guide of at least one base, replacing that character leaves the score
    unchanged. *)
Theorem off_target_ignores_last_base (guide t : str) (c c' : ascii) :
  (1 <= Py.len guide)%Z ->
  off_target guide (t ++ [c]) = off_target guide (t ++ [c']).
Proof.
  intros HL. rewrite !off_target_eq_spec. unfold spec_off_target.
  apply round1_comp. apply Q.min_compat; [reflexivity|].
  assert (El : forall x : ascii, Py.len (t ++ [x]) = (Py.len t + 1)%Z)
    by (intros x; unfold Py.len; rewrite length_app; simpl; lia).
  rewrite !El.
  apply Qmult_comp; [reflexivity|].
  apply sum_below_ext. intros i Hi.
  unfold window_term, window_mismatches.
  rewrite !(slice_app_l t) by lia. reflexivity.
Qed.

Lemma off_target_ignores_last_base_witness :
  off_target (py "ACGT") (py "TTACGTACG" ++ ["T"%char]) =
  off_target (py "ACGT") (py "TTACGTACG" ++ ["A"%char]).
Proof.
  apply (off_target_ignores_last_base (py "ACGT") (py "TTACGTACG")).
  vm_compute. discriminate.
Defined.

(** A candidate cut upstream of a site that [find_pam_sites] reports in
    the same cleaned sequence: its guide has 20 bases and its own window is
    among those visited. *)
Lemma pipeline_candidate (s : str) (pam_type : string) (sites : list Z)
  (gc_min gc_max : Q) (c : grna) :
  clean s = s ->
  find_pam_sites s pam_type = Some sites ->
  In c (design_grnas s sites gc_min gc_max) ->
  Py.len (sequence c) = 20%Z /\ 20 <= off_target (sequence c) s.
Proof.
  intros Hclean Hsites Hc. apply design_grnas_In in Hc.
  destruct Hc as (site & -> & Hsite & H20 & _).
  assert (Hr : (site <= Py.len s - 1)%Z).
  { unfold find_pam_sites in Hsites.
    destruct (pam_patterns pam_type) as [pattern|] eqn:Ep; [|discriminate].
    pose proof (pam_patterns_Some _ _ Ep) as Hp.
    destruct (find_pam_sites_sorted_range_aux s pam_type pattern sites Ep)
      as [_ Hrange].
    - unfold find_pam_sites. now rewrite Ep.
    - specialize (Hrange site Hsite). rewrite Hclean in Hrange. lia. }
  cbn [sequence grna_at].
  assert (Hl : Py.len (Py.slice s (site - 20) site) = 20%Z)
    by (rewrite slice_length; lia).
  split; [exact Hl|].
  apply (off_target_self_match _ _ (site - 20)).
  - apply window_offsets_In. lia.
  - rewrite Hl. f_equal. lia.
Qed.

(** X11.  In the pipeline the self-match is always counted: when the sites
    are those [find_pam_sites] reports for an already cleaned sequence and
    the candidates are scored against that same sequence, every candidate's
    guide has 20 bases and its score is at least 20.0. *)
Theorem pipeline_self_match (s : str) (pam_type : string) (sites : list Z)
  (gc_min gc_max : Q) (g : grna) :
  clean s = s ->
  find_pam_sites s pam_type = Some sites ->
  In g (check_off_targets (design_grnas s sites gc_min gc_max) s) ->
  Py.len (sequence g) = 20%Z /\
  exists score, off_target_score g = Some score /\ 20 <= score.
Proof.
  intros Hclean Hsites Hin.
  pose proof (check_off_targets_In _ _ _ Hin) as Hscore.
  unfold check_off_targets in Hin. apply in_map_iff in Hin.
  destruct Hin as (c & Eg & Hc).
  assert (Es : sequence g = sequence c) by (now subst g).
  destruct (pipeline_candidate s pam_type sites gc_min gc_max c
              Hclean Hsites Hc) as [Hl H20].
  rewrite Es. split; [exact Hl|].
  exists (off_target (sequence c) s). split; [now rewrite <- Es|exact H20].
Qed.

Lemma pipeline_self_match_witness :
  exists g score,
    In g (check_off_targets
            (design_grnas (py "ACGTACGTACGTACGTACGTAGG") [20%Z] 0.3 0.7)
            (py "ACGTACGTACGTACGTACGTAGG")) /\
    off_target_score g = Some score /\ 20 <= score.
Proof.
  set (s := py "ACGTACGTACGTACGTACGTAGG").
  set (g := {| sequence := sequence (grna_at s 20);
               pam := pam (grna_at s 20);
               position := position (grna_at s 20);
               gc_content := gc_content (grna_at s 20);
               off_target_score :=
                 Some (off_target (sequence (grna_at s 20)) s) |}).
  assert (Hin : In g (check_off_targets (design_grnas s [20%Z] 0.3 0.7) s))
    by (left; reflexivity).
  destruct (pipeline_self_match s "SpCas9 (NGG)" [20%Z] 0.3 0.7 g
              eq_refl eq_refl Hin) as (_ & score & Hs & H20).
  exists g, score. split; [exact Hin|]. split; [exact Hs|exact H20].
Defined.

(** ** Base counts and the reverse complement *)

Lemma count_snoc (c x : ascii) (l : str) :
  Py.count c (l ++ [x]) =
  (Py.count c l + if Ascii.eqb c x then 1 else 0)%Z.
Proof.
  unfold Py.count, Py.len. rewrite filter_app, length_app. cbn [filter].
  destruct (Ascii.eqb c x); simpl; lia.
Qed.

Lemma count_cons (c x : ascii) (l : str) :
  Py.count c (x :: l) =
  ((if Ascii.eqb c x then 1 else 0) + Py.count c l)%Z.
Proof.
  unfold Py.count, Py.len. cbn [filter].
  destruct (Ascii.eqb c x); cbn [List.length]; lia.
Qed.

Lemma count_nonneg (c : ascii) (l : str) : (0 <= Py.count c l)%Z.
Proof. unfold Py.count. apply len_nonneg. Qed.

Lemma rev_comp_cons (a : ascii) (s : str) :
  rev_comp (a :: s) = rev_comp s ++ [complement a].
Proof. unfold rev_comp. simpl. now rewrite map_app. Qed.

Lemma complement_involutive (a : ascii) : complement (complement a) = a.
Proof. destruct a as [[] [] [] [] [] [] [] []]; reflexivity. Qed.

Lemma complement_eqb (c a : ascii) :
  Ascii.eqb (complement c) (complement a) = Ascii.eqb c a.
Proof.
  destruct (Ascii.eqb_spec c a) as [->|Hne].
  - apply Ascii.eqb_refl.
  - apply Ascii.eqb_neq. intros E. apply Hne.
    now rewrite <- (complement_involutive c), E, complement_involutive.
Qed.

(** The reverse complement has as many copies of a base as the sequence
    has of its complement. *)
Lemma count_rev_comp (c : ascii) (s : str) :
  Py.count (complement c) (rev_comp s) = Py.count c s.
Proof.
  induction s as [|a s IH]; [reflexivity|].
  rewrite rev_comp_cons, count_snoc, count_cons, IH, complement_eqb. lia.
Qed.

Lemma count_four_le (s : str) :
  (Py.count "A" s + Py.count "T" s + Py.count "G" s + Py.count "C" s
   <= Py.len s)%Z.
Proof.
  induction s as [|a s IH]; [vm_compute; discriminate|].
  rewrite !count_cons.
  replace (Py.len (a :: s)) with (Py.len s + 1)%Z
    by (unfold Py.len; cbn [List.length]; lia).
  destruct (Ascii.eqb "A" a) eqn:EA, (Ascii.eqb "T" a) eqn:ET,
           (Ascii.eqb "G" a) eqn:EG, (Ascii.eqb "C" a) eqn:EC;
    try lia; exfalso;
    repeat match goal with
           | H : Ascii.eqb _ _ = true |- _ => apply Ascii.eqb_eq in H
           end; congruence.
Qed.

Lemma count_four_dna (s : str) :
  dna s ->
  (Py.count "A" s + Py.count "T" s + Py.count "G" s + Py.count "C" s
   = Py.len s)%Z.
Proof.
  induction 1 as [|a s Ha _ IH]; [reflexivity|].
  rewrite !count_cons.
  replace (Py.len (a :: s)) with (Py.len s + 1)%Z
    by (unfold Py.len; cbn [List.length]; lia).
  destruct Ha as [-> | [-> | [-> | ->]]];
    repeat match goal with
           | |- context [Ascii.eqb ?x ?y] =>
               let b := eval vm_compute in (Ascii.eqb x y) in
               change (Ascii.eqb x y) with b
           end; cbv iota; lia.
Qed.

(** X12.  The reverse complement is an involution that keeps the length;
    characters other than the four bases are kept as they are. *)
Theorem rev_comp_involutive (s : str) :
  rev_comp (rev_comp s) = s /\ Py.len (rev_comp s) = Py.len s.
Proof.
  unfold rev_comp, Py.len. split.
  - rewrite <- map_rev, rev_involutive, map_map.
    rewrite <- (map_id s) at 2. apply map_ext, complement_involutive.
  - now rewrite length_map, length_rev.
Qed.

(** ** Structure estimates *)

(** X13.  The stability estimate is never positive and never below
    -3/2 times the length: each G-C pair uses two bases and counts 3, each
    A-T pair uses two and counts 2. *)
Theorem simple_structure_estimation_bounds (s : str) :
  (simple_structure_estimation s <= 0)%Z /\
  (- 3 * Py.len s <= 2 * simple_structure_estimation s)%Z.
Proof.
  unfold simple_structure_estimation.
  pose proof (count_four_le s). pose proof (count_nonneg "A" s).
  pose proof (count_nonneg "T" s). pose proof (count_nonneg "G" s).
  pose proof (count_nonneg "C" s). lia.
Qed.

(** X14.  The stability estimate is the same for a sequence and for its
    reverse complement. *)
Theorem simple_structure_estimation_rev_comp (s : str) :
  simple_structure_estimation (rev_comp s) = simple_structure_estimation s.
Proof.
  unfold simple_structure_estimation.
  pose proof (count_rev_comp "A" s) as HA.
  pose proof (count_rev_comp "T" s) as HT.
  pose proof (count_rev_comp "G" s) as HG.
  pose proof (count_rev_comp "C" s) as HC.
  change (complement "A") with "T"%char in HA.
  change (complement "T") with "A"%char in HT.
  change (complement "G") with "C"%char in HG.
  change (complement "C") with "G"%char in HC.
  rewrite HA, HT, HG, HC. lia.
Qed.

Lemma Qlt_bool_iff (x y : Q) : Py.Qlt_bool x y = true <-> x < y.
Proof.
  unfold Py.Qlt_bool. rewrite negb_true_iff.
  rewrite <- not_true_iff_false, Qle_bool_iff. split.
  - apply Qnot_le_lt.
  - apply Qlt_not_le.
Qed.

Lemma half_lt (n g : Z) : inject_Z n / 2 < inject_Z g <-> (n < 2 * g)%Z.
Proof.
  rewrite Zlt_Qlt, inject_Z_mult. change (inject_Z 2) with 2.
  const_div. split; lra.
Qed.

Lemma third_lt (n g : Z) : inject_Z n / 3 < inject_Z g <-> (n < 3 * g)%Z.
Proof.
  rewrite Zlt_Qlt, inject_Z_mult. change (inject_Z 3) with 3.
  unfold Qdiv. change (/ 3) with (1 # 3). split; lra.
Qed.

(** X15.  For a DNA sequence the two counts of [analyze_structure_details]
    add up to the length, the stability is "High" exactly when G and C
    outnumber A and T, and "Low" exactly when A and T are at least twice as
    many as G and C. *)
Theorem analyze_structure_details_dna (s : str) :
  dna s ->
  let d := analyze_structure_details s in
  (gc_pairs d + at_pairs d = Py.len s)%Z /\
  (stability d = "High"%string <-> (at_pairs d < gc_pairs d)%Z) /\
  (stability d = "Low"%string <-> (2 * gc_pairs d <= at_pairs d)%Z).
Proof.
  intros Hdna. cbv zeta. unfold analyze_structure_details.
  cbn [gc_pairs at_pairs stability].
  pose proof (count_four_dna s Hdna) as Hsum.
  set (gc := (Py.count "G" s + Py.count "C" s)%Z) in *.
  set (at_ := (Py.count "A" s + Py.count "T" s)%Z) in *.
  assert (Hlen : Py.len s = (gc + at_)%Z) by (unfold gc, at_; lia).
  assert (Hgc : (0 <= gc)%Z).
  { pose proof (count_nonneg "G" s). pose proof (count_nonneg "C" s).
    unfold gc. lia. }
  assert (Hat : (0 <= at_)%Z).
  { pose proof (count_nonneg "A" s). pose proof (count_nonneg "T" s).
    unfold at_. lia. }
  split; [lia|].
  destruct (Py.Qlt_bool (inject_Z (Py.len s) / 2) (inject_Z gc)) eqn:E1.
  - apply Qlt_bool_iff, half_lt in E1.
    split; split; intros H; try discriminate H; try reflexivity; lia.
  - assert (N1 : ~ (Py.len s < 2 * gc)%Z)
      by (rewrite <- half_lt, <- Qlt_bool_iff, E1; discriminate).
    destruct (Py.Qlt_bool (inject_Z (Py.len s) / 3) (inject_Z gc)) eqn:E2.
    + apply Qlt_bool_iff, third_lt in E2.
      split; split; intros H; try discriminate H; lia.
    + assert (N2 : ~ (Py.len s < 3 * gc)%Z)
        by (rewrite <- third_lt, <- Qlt_bool_iff, E2; discriminate).
      split; split; intros H; try discriminate H; try reflexivity; lia.
Qed.

Lemma analyze_structure_details_dna_witness :
  stability (analyze_structure_details (py "GGCCGA")) = "High"%string /\
  stability (analyze_structure_details (py "AATTAG")) = "Low"%string.
Proof.
  split.
  - apply (analyze_structure_details_dna (py "GGCCGA")).
    + dna_tac.
    + vm_compute. reflexivity.
  - apply (analyze_structure_details_dna (py "AATTAG")).
    + dna_tac.
    + vm_compute. discriminate.
Defined.

(** ** GC score *)

(** X16.  The GC score is 1.0 exactly on the window 0.45 <= GC <= 0.65,
    and below 1.0 everywhere else. *)
Theorem gc_score_peak (s : str) :
  (gc_score s == 1 <-> 0.45 <= gc_fraction s <= 0.65) /\
  (~ 0.45 <= gc_fraction s <= 0.65 -> gc_score s < 1).
Proof.
  unfold gc_score. pose proof (gc_fraction_bounds s) as [H0 H1].
  destruct (Qle_bool 0.45 (gc_fraction s)) eqn:E1;
  destruct (Qle_bool (gc_fraction s) 0.65) eqn:E2; cbn [andb].
  - apply Qle_bool_iff in E1, E2. split; [split; [tauto|reflexivity]|tauto].
  - apply Qle_bool_iff in E1.
    assert (H : ~ gc_fraction s <= 0.65)
      by (rewrite <- Qle_bool_iff, E2; discriminate).
    assert (Hlt : Py.Qlt_bool (gc_fraction s) 0.45 = false).
    { apply not_true_iff_false. rewrite Qlt_bool_iff. lra. }
    rewrite Hlt.
    assert (G : (1 - gc_fraction s) / 0.35 < 1) by (const_div; lra).
    split; [split; [lra|tauto]|auto].
  - assert (H : ~ 0.45 <= gc_fraction s)
      by (rewrite <- Qle_bool_iff, E1; discriminate).
    assert (Hlt : Py.Qlt_bool (gc_fraction s) 0.45 = true)
      by (rewrite Qlt_bool_iff; lra).
    rewrite Hlt.
    assert (G : gc_fraction s / 0.45 < 1) by (const_div; lra).
    split; [split; [lra|tauto]|auto].
  - assert (H : ~ 0.45 <= gc_fraction s)
      by (rewrite <- Qle_bool_iff, E1; discriminate).
    assert (Hlt : Py.Qlt_bool (gc_fraction s) 0.45 = true)
      by (rewrite Qlt_bool_iff; lra).
    rewrite Hlt.
    assert (G : gc_fraction s / 0.45 < 1) by (const_div; lra).
    split; [split; [lra|tauto]|auto].
Qed.

Lemma gc_score_peak_witness : gc_score (py "GGGGGGGGAA") < 1.
Proof.
  apply (gc_score_peak (py "GGGGGGGGAA")).
  intros [_ H]. vm_compute in H. apply H. reflexivity.
Defined.

(** ** Loops that track a maximum *)

Lemma fold_max_spec {A} (f : A -> bool) (v : A -> Z) (l : list A) (m0 : Z) :
  let r := fold_left (fun m x => if f x then Z.max m (v x) else m) l m0 in
  (m0 <= r)%Z /\
  (forall x, In x l -> f x = true -> (v x <= r)%Z) /\
  (r = m0 \/ exists x, In x l /\ f x = true /\ v x = r).
Proof.
  cbv zeta. revert m0. induction l as [|a l IH]; intros m0; simpl.
  - split; [lia|]. split; [tauto|now left].
  - destruct (IH (if f a then Z.max m0 (v a) else m0)) as (H1 & H2 & H3).
    destruct (f a) eqn:Ea.
    + split; [lia|]. split.
      * intros x [<-|Hx] Hf; [lia|now apply H2].
      * destruct H3 as [E|(x & Hx & Hf & Ev)].
        -- destruct (Z.max_spec m0 (v a)) as [[_ Em]|[_ Em]].
           ++ right. exists a. repeat split; auto. congruence.
           ++ left. congruence.
        -- right. exists x. auto.
    + split; [assumption|]. split.
      * intros x [<-|Hx] Hf; [congruence|now apply H2].
      * destruct H3 as [E|(x & Hx & Hf & Ev)]; [now left|].
        right. exists x. auto.
Qed.

(** ** The position score of [sequence_tools.py] *)

Lemma range_cons (lo hi : Z) :
  (lo < hi)%Z -> Py.range lo hi = lo :: Py.range (lo + 1) hi.
Proof.
  intros H. unfold Py.range.
  replace (Z.to_nat (hi - lo)) with (S (Z.to_nat (hi - (lo + 1)))) by lia.
  cbn [seq map]. f_equal; [lia|].
  rewrite <- seq_shift, map_map. apply map_ext. intros k. lia.
Qed.

Lemma enumerate_from_cons {A} (k : Z) (a : A) (s : list A) :
  combine (Py.range k (k + Py.len (a :: s))) (a :: s) =
  (k, a) :: combine (Py.range (k + 1) (k + 1 + Py.len s)) s.
Proof.
  assert (E : Py.len (a :: s) = (Py.len s + 1)%Z)
    by (unfold Py.len; cbn [List.length]; lia).
  pose proof (len_nonneg s).
  rewrite E, range_cons by lia. cbn [combine]. do 3 f_equal. lia.
Qed.

Lemma item_in_range {A} (l : list A) (i : Z) :
  (0 <= i < Py.len l)%Z -> exists x, Py.item l i = Some x /\ In x l.
Proof.
  intros H. unfold Py.item.
  destruct (Z.leb_spec 0 i); [|lia].
  destruct (Z.ltb_spec i (Py.len l)); [|lia]. cbn [andb].
  destruct (nth_error l (Z.to_nat i)) as [x|] eqn:E.
  - exists x. split; [reflexivity|]. eapply nth_error_In; eassumption.
  - apply nth_error_None in E. unfold Py.len in *. lia.
Qed.

Lemma item_out_of_range {A} (l : list A) (i : Z) :
  (Py.len l <= i)%Z -> Py.item l i = None.
Proof.
  intros H. unfold Py.item.
  destruct (Z.ltb_spec i (Py.len l)); [lia|]. now rewrite andb_false_r.
Qed.

Lemma item_In {A} (l : list A) (i : Z) (x : A) :
  Py.item l i = Some x -> In x l.
Proof.
  unfold Py.item. destruct (_ && _); [|discriminate].
  apply nth_error_In.
Qed.

Lemma position_weights_dna (base : ascii) :
  dna_base base ->
  exists row, position_weights base = Some row /\ Py.len row = 20%Z /\
              Forall (fun w => 0.1 <= w <= 0.9) row.
Proof.
  intros [-> | [-> | [-> | ->]]]; eexists;
    (split; [reflexivity|]); (split; [reflexivity|]);
    repeat (apply Forall_cons; [split; discriminate|]); apply Forall_nil.
Qed.

Lemma position_weights_not_dna (base : ascii) :
  ~ dna_base base -> position_weights base = None.
Proof.
  intros H. unfold position_weights, dna_base in *.
  destruct (Ascii.eqb_spec base "G"); [tauto|].
  destruct (Ascii.eqb_spec base "A"); [tauto|].
  destruct (Ascii.eqb_spec base "T"); [tauto|].
  destruct (Ascii.eqb_spec base "C"); [tauto|reflexivity].
Qed.


Lemma position_fold_raise (l : list (Z * ascii)) (e : exn) :
  fold_left position_step l (Raise e) = Raise e.
Proof. induction l as [|ib l IH]; simpl; auto. Qed.

Lemma position_step_ok (acc : Q) (k : Z) (a : ascii) :
  dna_base a -> (0 <= k < 20)%Z ->
  exists w, position_step (Ok acc) (k, a) = Ok (acc + w) /\
            0.1 <= w <= 0.9.
Proof.
  intros Ha Hk. destruct (position_weights_dna a Ha) as (row & Er & Hl & Hf).
  destruct (item_in_range row k) as (w & Ew & Hw); [lia|].
  exists w. unfold position_step. cbn [fst snd]. rewrite Er, Ew.
  split; [reflexivity|]. rewrite Forall_forall in Hf. now apply Hf.
Qed.

Lemma position_fold_ok (s : str) :
  dna s -> forall k acc, (0 <= k)%Z -> (k + Py.len s <= 20)%Z ->
  exists acc',
    fold_left position_step (combine (Py.range k (k + Py.len s)) s) (Ok acc)
      = Ok acc' /\
    acc + 0.1 * inject_Z (Py.len s) <= acc' /\
    acc' <= acc + 0.9 * inject_Z (Py.len s).
Proof.
  induction 1 as [|a s Ha Hs IH]; intros k acc Hk Hlen.
  - exists acc. unfold Py.len. simpl. rewrite Z.add_0_r, range_nil by lia.
    simpl. split; [reflexivity|]. change (inject_Z 0) with 0. split; lra.
  - assert (E : Py.len (a :: s) = (Py.len s + 1)%Z)
      by (unfold Py.len; cbn [List.length]; lia).
    pose proof (len_nonneg s) as Hn.
    rewrite enumerate_from_cons. cbn [fold_left].
    destruct (position_step_ok acc k a Ha) as (w & -> & Hw); [lia|].
    destruct (IH (k + 1)%Z (acc + w)) as (acc' & -> & Hlo & Hhi); [lia|lia|].
    exists acc'. split; [reflexivity|].
    rewrite E, inject_Z_plus. change (inject_Z 1) with 1. split; lra.
Qed.

Lemma position_fold_index_error (s : str) :
  dna s -> forall k acc, (0 <= k <= 20)%Z -> (20 < k + Py.len s)%Z ->
  fold_left position_step (combine (Py.range k (k + Py.len s)) s) (Ok acc)
    = Raise IndexError.
Proof.
  induction 1 as [|a s Ha Hs IH]; intros k acc Hk Hlen.
  - unfold Py.len in Hlen. simpl in Hlen. lia.
  - assert (E : Py.len (a :: s) = (Py.len s + 1)%Z)
      by (unfold Py.len; cbn [List.length]; lia).
    rewrite enumerate_from_cons. cbn [fold_left].
    destruct (Z.eq_dec k 20) as [->|Hne].
    + destruct (position_weights_dna a Ha) as (row & Er & Hl & _).
      unfold position_step at 2. cbn [fst snd].
      rewrite Er, item_out_of_range by lia. apply position_fold_raise.
    + destruct (position_step_ok acc k a Ha) as (w & -> & _); [lia|].
      apply IH; lia.
Qed.

Lemma position_fold_key_error (pre : str) (b : ascii) (post : str) :
  dna pre -> ~ dna_base b ->
  forall k acc, (0 <= k)%Z -> (k + Py.len pre <= 20)%Z ->
  fold_left position_step
    (combine (Py.range k (k + Py.len (pre ++ b :: post))) (pre ++ b :: post))
    (Ok acc) = Raise KeyError.
Proof.
  intros Hpre Hb. induction Hpre as [|a pre Ha Hpre IH]; intros k acc Hk Hlen.
  - cbn [app]. rewrite enumerate_from_cons. cbn [fold_left].
    unfold position_step at 2. cbn [snd].
    rewrite position_weights_not_dna by assumption.
    apply position_fold_raise.
  - assert (E : Py.len (a :: pre) = (Py.len pre + 1)%Z)
      by (unfold Py.len; cbn [List.length]; lia).
    pose proof (len_nonneg pre).
    cbn [app]. rewrite enumerate_from_cons. cbn [fold_left].
    destruct (position_step_ok acc k a Ha) as (w & -> & _); [lia|].
    apply IH; lia.
Qed.

(** X17.  [calculate_position_score] divides by zero on the empty
    sequence, returns a value between 0.1 and 0.9 for a DNA sequence of 1 to
    20 bases, raises an [IndexError] for a longer DNA sequence (its table
    has 20 columns), and a [KeyError] at the first character that is not
    one of the four bases when at most 20 characters come before it. *)
Theorem calculate_position_score_cases (s : str) :
  (s = [] -> calculate_position_score s = Raise ZeroDivisionError) /\
  (dna s -> (1 <= Py.len s <= 20)%Z ->
     exists q, calculate_position_score s = Ok q /\ 0.1 <= q <= 0.9) /\
  (dna s -> (20 < Py.len s)%Z ->
     calculate_position_score s = Raise IndexError) /\
  (forall pre b post,
     s = pre ++ b :: post -> dna pre -> ~ dna_base b ->
     (Py.len pre <= 20)%Z ->
     calculate_position_score s = Raise KeyError).
Proof.
  unfold calculate_position_score, position_sum, enumerate.
  split; [now intros ->|]. split; [|split].
  - intros Hdna Hlen.
    destruct (position_fold_ok s Hdna 0 0) as (acc & E & Hlo & Hhi);
      [lia|lia|].
    rewrite Z.add_0_l in E. rewrite E.
    destruct (Z.eqb_spec (Py.len s) 0); [lia|].
    eexists. split; [reflexivity|].
    assert (Hpos : 0 < inject_Z (Py.len s))
      by (rewrite <- (Zlt_Qlt 0); lia).
    split.
    + apply Qle_shift_div_l; [assumption|]. lra.
    + apply Qle_shift_div_r; [assumption|]. lra.
  - intros Hdna Hlen.
    pose proof (position_fold_index_error s Hdna 0 0) as E.
    rewrite Z.add_0_l in E. rewrite E by lia. reflexivity.
  - intros pre b post -> Hpre Hb Hlen.
    pose proof (position_fold_key_error pre b post Hpre Hb 0 0) as E.
    rewrite !Z.add_0_l in E. rewrite E by (pose proof (len_nonneg pre); lia).
    reflexivity.
Qed.

Lemma calculate_position_score_cases_witness :
  (exists q, calculate_position_score (py "GATTACA") = Ok q /\
             0.1 <= q <= 0.9) /\
  calculate_position_score (py "ACGTACGTACGTACGTACGTA") = Raise IndexError /\
  calculate_position_score (py "ACGNT") = Raise KeyError.
Proof.
  split; [|split].
  - apply (calculate_position_score_cases (py "GATTACA")).
    + dna_tac.
    + vm_compute. split; discriminate.
  - apply (calculate_position_score_cases (py "ACGTACGTACGTACGTACGTA")).
    + dna_tac.
    + vm_compute. reflexivity.
  - apply (calculate_position_score_cases (py "ACGNT")) with
      (pre := py "ACG") (b := "N"%char) (post := py "T").
    + reflexivity.
    + dna_tac.
    + unfold dna_base. intros [H | [H | [H | H]]]; discriminate H.
    + vm_compute. discriminate.
Defined.

(** ** Self-complementarity *)

Lemma complement_all_dna (l : str) :
  dna l -> exists r, complement_all l = Some r.
Proof.
  induction 1 as [|a l Ha _ [r IH]]; [now exists []|].
  cbn [complement_all]. rewrite IH.
  destruct Ha as [-> | [-> | [-> | ->]]]; eexists; reflexivity.
Qed.

Lemma complement_all_Some (l r : str) :
  complement_all l = Some r -> dna l.
Proof.
  revert r. induction l as [|a l IH]; intros r; [constructor|].
  cbn [complement_all].
  destruct (complement_strict a) as [c|] eqn:Ea; [|discriminate].
  destruct (complement_all l) as [r'|]; [|discriminate].
  intros _. constructor; [|now apply (IH r')].
  unfold complement_strict, dna_base in *.
  destruct (Ascii.eqb_spec a "A"); [tauto|].
  destruct (Ascii.eqb_spec a "T"); [tauto|].
  destruct (Ascii.eqb_spec a "G"); [tauto|].
  destruct (Ascii.eqb_spec a "C"); [tauto|discriminate].
Qed.

Lemma dna_rev (s : str) : dna (rev s) <-> dna s.
Proof.
  unfold dna. rewrite !Forall_forall. split; intros H x Hx; apply H.
  - now apply in_rev in Hx.
  - now apply in_rev.
Qed.

Lemma scanned_pairs3_In (n i j : Z) :
  In (i, j) (scanned_pairs3 n) <->
  (0 <= i)%Z /\ (i + 3 <= j)%Z /\ (j <= n - 1)%Z.
Proof.
  unfold scanned_pairs3. rewrite in_flat_map. split.
  - intros (i0 & Hi & Hj). apply range_In in Hi.
    apply in_map_iff in Hj. destruct Hj as (j0 & [= <- <-] & Hj).
    apply range_In in Hj. lia.
  - intros (Hi & Hj & Hn). exists i. split; [apply range_In; lia|].
    apply in_map_iff. exists j. split; [reflexivity|]. apply range_In. lia.
Qed.

(** X18.  [check_self_complementarity] raises a [KeyError] exactly when
    the sequence has a character outside the four bases, divides by zero on
    the empty sequence, and otherwise returns a fraction in [0, 1) that is a
    multiple of 1/len: the whole sequence is never compared, and for 3
    bases or fewer the result is 0. *)
Theorem check_self_complementarity_cases (s : str) :
  (check_self_complementarity s = Raise KeyError <-> ~ dna s) /\
  (s = [] -> check_self_complementarity s = Raise ZeroDivisionError) /\
  (dna s -> s <> [] ->
     exists m,
       check_self_complementarity s = Ok (inject_Z m / inject_Z (Py.len s)) /\
       (0 <= m <= Py.len s - 1)%Z /\
       ((Py.len s <= 3)%Z -> m = 0%Z) /\
       0 <= inject_Z m / inject_Z (Py.len s) < 1).
Proof.
  unfold check_self_complementarity. split; [|split].
  - destruct (complement_all (rev s)) as [rc|] eqn:E.
    + apply complement_all_Some in E. apply (proj1 (dna_rev s)) in E.
      destruct (Py.len s =? 0)%Z; (split; [discriminate|]);
        intros H; now destruct (H E).
    + split; [|reflexivity]. intros _ Hdna. apply dna_rev in Hdna.
      destruct (complement_all_dna _ Hdna) as [r Er]. congruence.
  - now intros ->.
  - intros Hdna Hne.
    destruct (complement_all_dna (rev s)) as [rc ->]; [now apply dna_rev|].
    assert (Hlen : (1 <= Py.len s)%Z)
      by (destruct s; [congruence|unfold Py.len; cbn [List.length]; lia]).
    destruct (Z.eqb_spec (Py.len s) 0); [lia|].
    pose proof (fold_max_spec
      (fun ij => Py.contains (Py.slice s (fst ij) (snd ij)) rc)
      (fun ij => (snd ij - fst ij)%Z)
      (scanned_pairs3 (Py.len s)) 0) as H. cbv zeta in H.
    match type of H with
    | (_ <= ?r)%Z /\ _ => set (m := r) in *
    end.
    destruct H as (H0 & _ & H3).
    exists m. split; [reflexivity|].
    assert (Hm : (0 <= m <= Py.len s - 1)%Z).
    { split; [assumption|].
      destruct H3 as [-> | ([i j] & Hin & _ & <-)]; [lia|].
      apply scanned_pairs3_In in Hin. cbn [fst snd]. lia. }
    split; [exact Hm|]. split.
    + intros H3'. destruct H3 as [E|([i j] & Hin & _)]; [exact E|].
      apply scanned_pairs3_In in Hin. lia.
    + assert (Hpos : 0 < inject_Z (Py.len s))
        by (rewrite <- (Zlt_Qlt 0); lia).
      split.
      * apply Qle_shift_div_l; [assumption|].
        rewrite Qmult_0_l, <- (Zle_Qle 0). lia.
      * apply Qlt_shift_div_r; [assumption|].
        rewrite Qmult_1_l, <- Zlt_Qlt. lia.
Qed.

Lemma check_self_complementarity_cases_witness :
  check_self_complementarity (py "ACGNT") = Raise KeyError /\
  exists m, check_self_complementarity (py "AATT")
            = Ok (inject_Z m / inject_Z (Py.len (py "AATT"))) /\
            (0 <= m <= 3)%Z.
Proof.
  split.
  - apply (check_self_complementarity_cases (py "ACGNT")).
    intros H. inversion H as [|? ? _ H1]; subst.
    inversion H1 as [|? ? _ H2]; subst. inversion H2 as [|? ? _ H3]; subst.
    inversion H3 as [|? ? Hn _]; subst.
    destruct Hn as [E | [E | [E | E]]]; discriminate E.
  - destruct (check_self_complementarity_cases (py "AATT"))
      as (_ & _ & H).
    destruct H as (m & Em & Hm & _).
    + dna_tac.
    + discriminate.
    + exists m. split; [exact Em|exact Hm].
Defined.

(** X19.  The maximum tracked by [self_complementarity_score] is the length
    of the longest scanned region (at least 5 bases, not reaching the last
    base) that occurs in the reverse complement, and 0 when there is none:
    it bounds every such region, and when it is not 0 it is the length of
    one of them.  So it is never 1 to 4, never the full length, and the
    score 0.0 needs a guide of 13 bases or more. *)
Theorem max_complementary_spec (s : str) :
  let m := max_complementary s in
  (forall i j, In (i, j) (scanned_pairs (Py.len s)) ->
     Py.contains (Py.slice s i j) (rev_comp s) = true -> (j - i <= m)%Z) /\
  (m = 0%Z \/
   (5 <= m <= Py.len s - 1)%Z /\
   exists i, (0 <= i)%Z /\ (i + m <= Py.len s - 1)%Z /\
             Py.contains (Py.slice s i (i + m)) (rev_comp s) = true) /\
  (self_complementarity_score s == 0 -> (13 <= Py.len s)%Z).
Proof.
  cbv zeta. unfold self_complementarity_score, max_complementary.
  pose proof (fold_max_spec
    (fun ij => Py.contains (Py.slice s (fst ij) (snd ij)) (rev_comp s))
    (fun ij => Py.len (Py.slice s (fst ij) (snd ij)))
    (scanned_pairs (Py.len s)) 0) as H. cbv zeta in H.
  match type of H with
  | (_ <= ?r)%Z /\ _ => set (m := r) in *
  end.
  destruct H as (H0 & H2 & H3).
  assert (Hlen : forall i j, In (i, j) (scanned_pairs (Py.len s)) ->
            Py.len (Py.slice s i j) = (j - i)%Z).
  { intros i j Hin. apply scanned_pairs_In in Hin.
    apply slice_length; lia. }
  assert (Hm : m = 0%Z \/
     (5 <= m <= Py.len s - 1)%Z /\
     exists i, (0 <= i)%Z /\ (i + m <= Py.len s - 1)%Z /\
               Py.contains (Py.slice s i (i + m)) (rev_comp s) = true).
  { destruct H3 as [E|([i j] & Hin & Hf & Ev)]; [now left|right].
    cbn [fst snd] in *. rewrite (Hlen i j Hin) in Ev.
    apply scanned_pairs_In in Hin. split; [lia|].
    exists i. replace (i + m)%Z with j by lia. repeat split; try lia.
    exact Hf. }
  split; [|split].
  - intros i j Hin Hc. rewrite <- (Hlen i j Hin).
    apply (H2 (i, j) Hin Hc).
  - exact Hm.
  - unfold complementarity_penalty.
    destruct (Z.ltb_spec m 5); [discriminate|].
    destruct (Z.leb_spec 12 m); [destruct Hm as [->|[Hm _]]; lia|].
    intros E. exfalso.
    assert (Hb : inject_Z (m - 5) <= 6) by (rewrite <- (Zle_Qle _ 6); lia).
    revert E. const_div. intros E. lra.
Qed.

Lemma max_complementary_spec_witness :
  (5 <= max_complementary (py "AAAAATTTTTAAAAATTTTT"))%Z.
Proof.
  destruct (max_complementary_spec (py "AAAAATTTTTAAAAATTTTT"))
    as (Hall & _ & _).
  apply (Hall 0%Z 5%Z).
  - apply scanned_pairs_In. vm_compute. repeat split; discriminate.
  - reflexivity.
Defined.

(** ** Efficiency prediction and the single-sequence pipeline *)

Lemma final_score_bounds (s : str) :
  0 <= s_final_score (calculate_all_scores s) <= 1.
Proof.
  unfold calculate_all_scores. cbn [s_final_score].
  pose proof (gc_score_bounds s). pose proof (homopolymer_score_bounds s).
  pose proof (self_complementarity_score_bounds s).
  pose proof (position_score_bounds s). split; lra.
Qed.

(** X20.  After [predict_grna_efficiency] the entries of a dictionary are
    consistent: the efficiency score is the weighted sum of the stored
    component scores and lies in [0, 1].  The entry ['position'] is the
    position score, a number in [0, 1], whatever start index [design_grnas]
    had stored there. *)
Theorem predict_grna_efficiency_entries (grnas : list grna)
  (g : scored_grna) :
  In g (predict_grna_efficiency grnas) ->
  sg_efficiency_score g ==
    0.25 * sg_gc_score g + 0.25 * sg_self_complementarity g +
    0.2 * sg_homopolymer g + 0.3 * sg_position g /\
  0 <= sg_efficiency_score g <= 1 /\
  sg_position g = position_score (sg_sequence g) /\
  0 <= sg_position g <= 1.
Proof.
  unfold predict_grna_efficiency. rewrite in_map_iff.
  intros (c & <- & _). cbn.
  split; [ring|]. split; [apply final_score_bounds|].
  split; [reflexivity|apply position_score_bounds].
Qed.

Lemma predict_grna_efficiency_entries_witness :
  exists g,
    In g (predict_grna_efficiency
            [grna_at (py "ACGTACGTACGTACGTACGTAGGACGTACGTACGTAGG") 36]) /\
    0 <= sg_position g <= 1.
Proof.
  eexists. split; [left; reflexivity|].
  apply (predict_grna_efficiency_entries
           [grna_at (py "ACGTACGTACGTACGTACGTAGGACGTACGTACGTAGG") 36]).
  left. reflexivity.
Defined.

(** The candidates [process_single_sequence] hands to the display. *)
Lemma process_single_sequence_shown (sequence : str) (pam_type : string)
  (gc_min gc_max efficiency_threshold max_off_targets : Q)
  (show_all check_secondary : bool) (o : outcome) :
  process_single_sequence sequence pam_type gc_min gc_max
    efficiency_threshold max_off_targets show_all check_secondary = Ok o ->
  (o = EnterSequence \/ o = InvalidCharacters \/ o = NoPamSites \/
   o = NoSuitableGuides) \/
  exists sites,
    find_pam_sites (clean sequence) pam_type = Some sites /\
    let grnas :=
      check_off_targets_scored
        (predict_grna_efficiency
           (design_grnas (clean sequence) sites (gc_min / 100)
                         (gc_max / 100)))
        (clean sequence) in
    let filtered :=
      filter (meets_criteria efficiency_threshold max_off_targets) grnas in
    (show_all = true /\ o = ShowingAll grnas) \/
    (show_all = false /\ filtered = [] /\ o = NoneMeetCriteria grnas) \/
    (show_all = false /\ filtered <> [] /\ o = Found filtered).
Proof.
  unfold process_single_sequence.
  destruct (clean sequence) as [|c0 cs] eqn:Ec; [intros [= <-]; tauto|].
  destruct (only_ATGC (c0 :: cs)); cbn [negb]; [|intros [= <-]; tauto].
  destruct (find_pam_sites (c0 :: cs) pam_type) as [[|site sites]|] eqn:Es;
    [intros [= <-]; tauto| |discriminate].
  destruct (design_grnas (c0 :: cs) (site :: sites) (gc_min / 100)
              (gc_max / 100)) as [|g0 gs] eqn:Ed; [intros [= <-]; tauto|].
  intros H. right. exists (site :: sites). split; [reflexivity|].
  cbv zeta. rewrite Ed.
  destruct show_all; cbn [negb] in H.
  - injection H as <-. left. split; reflexivity.
  - right.
    destruct (filter (meets_criteria efficiency_threshold max_off_targets)
                (check_off_targets_scored
                   (predict_grna_efficiency (g0 :: gs)) (c0 :: cs)))
      as [|f0 fs] eqn:Ef; injection H as <-.
    + left. repeat split.
    + right. repeat split. discriminate.
Qed.

Lemma scored_pipeline_In (s : str) (pam_type : string) (sites : list Z)
  (gc_min gc_max : Q) (g : scored_grna) :
  clean s = s ->
  find_pam_sites s pam_type = Some sites ->
  In g (check_off_targets_scored
          (predict_grna_efficiency (design_grnas s sites gc_min gc_max)) s) ->
  Py.len (sg_sequence g) = 20%Z /\
  0 <= sg_efficiency_score g <= 1 /\
  exists off, sg_off_target_score g = Some off /\ 20 <= off <= 100.
Proof.
  intros Hclean Hsites Hin.
  unfold check_off_targets_scored in Hin. apply in_map_iff in Hin.
  destruct Hin as (g1 & <- & Hin). cbn.
  unfold predict_grna_efficiency in Hin. apply in_map_iff in Hin.
  destruct Hin as (c & <- & Hc). cbn.
  destruct (pipeline_candidate s pam_type sites gc_min gc_max c
              Hclean Hsites Hc) as [Hl H20].
  split; [exact Hl|]. split; [apply final_score_bounds|].
  eexists. split; [reflexivity|]. split; [exact H20|].
  apply off_target_bounds.
Qed.

(** X21.  Whatever list [process_single_sequence] displays, each of its
    candidates has a guide of 20 bases, an efficiency score in [0, 1] and an
    off-target score between 20.0 and 100: the self-match is always
    counted. *)
Theorem process_single_sequence_displayed (sequence : str)
  (pam_type : string)
  (gc_min gc_max efficiency_threshold max_off_targets : Q)
  (show_all check_secondary : bool) (shown : list scored_grna)
  (g : scored_grna) :
  (let r := process_single_sequence sequence pam_type gc_min gc_max
              efficiency_threshold max_off_targets show_all
              check_secondary in
   r = Ok (ShowingAll shown) \/ r = Ok (NoneMeetCriteria shown) \/
   r = Ok (Found shown)) ->
  In g shown ->
  Py.len (sg_sequence g) = 20%Z /\
  0 <= sg_efficiency_score g <= 1 /\
  exists off, sg_off_target_score g = Some off /\ 20 <= off <= 100.
Proof.
  cbv zeta. intros H Hg.
  assert (exists o, process_single_sequence sequence pam_type gc_min gc_max
              efficiency_threshold max_off_targets show_all
              check_secondary = Ok o /\
            (o = ShowingAll shown \/ o = NoneMeetCriteria shown \/
             o = Found shown)) as (o & Ho & Hcase).
  { destruct H as [H|[H|H]]; eexists; (split; [exact H|]); tauto. }
  apply process_single_sequence_shown in Ho.
  destruct Ho as [Hsimple|(sites & Hsites & Hshown)].
  - destruct Hsimple as [-> | [-> | [-> | ->]]];
      destruct Hcase as [E|[E|E]]; discriminate E.
  - cbv zeta in Hshown.
    apply (scored_pipeline_In (clean sequence) pam_type sites
             (gc_min / 100) (gc_max / 100)); [apply clean_idem|exact Hsites|].
    destruct Hshown as [(_ & ->) | [(_ & _ & ->) | (_ & _ & ->)]];
      destruct Hcase as [E|[E|E]]; try discriminate E;
      injection E as <-; try exact Hg.
    apply filter_In in Hg. tauto.
Qed.

Lemma process_single_sequence_displayed_witness :
  exists shown g,
    process_single_sequence (py "acgtacgtacgtacgtacgt agg") "SpCas9 (NGG)"
      40 60 0.5 50 true false = Ok (ShowingAll shown) /\
    In g shown /\
    Py.len (sg_sequence g) = 20%Z /\
    exists off, sg_off_target_score g = Some off /\ 20 <= off <= 100.
Proof.
  set (r := process_single_sequence (py "acgtacgtacgtacgtacgt agg")
              "SpCas9 (NGG)" 40 60 0.5 50 true false).
  set (shown := match r with Ok (ShowingAll l) => l | _ => [] end).
  set (d := mk_scored_grna [] [] 0 0 0 0 0 0 None).
  assert (Hr : r = Ok (ShowingAll shown)) by reflexivity.
  assert (Hin : In (nth 0 shown d) shown) by (left; reflexivity).
  destruct (process_single_sequence_displayed
              (py "acgtacgtacgtacgtacgt agg") "SpCas9 (NGG)" 40 60 0.5 50
              true false shown (nth 0 shown d) (or_introl Hr) Hin)
    as (Hl & _ & Hoff).
  exists shown, (nth 0 shown d).
  split; [exact Hr|]. split; [exact Hin|]. split; [exact Hl|exact Hoff].
Defined.

(** X22.  With a maximum off-target score below 20 no candidate can meet
    the criteria: [process_single_sequence] never reports found guides, and
    whenever it has candidates and is not asked to show all it falls back to
    the warning that shows them all. *)
Theorem process_single_sequence_low_maximum (sequence : str)
  (pam_type : string)
  (gc_min gc_max efficiency_threshold max_off_targets : Q)
  (show_all check_secondary : bool) (found : list scored_grna) :
  max_off_targets < 20 ->
  process_single_sequence sequence pam_type gc_min gc_max
    efficiency_threshold max_off_targets show_all check_secondary
  <> Ok (Found found).
Proof.
  intros Hmax H. apply process_single_sequence_shown in H.
  destruct H as [[E|[E|[E|E]]]|(sites & Hsites & Hshown)];
    try discriminate E.
  cbv zeta in Hshown.
  destruct Hshown as [(_ & E)|[(_ & _ & E)|(_ & Hne & E)]];
    try discriminate E.
  injection E as ->.
  destruct (filter (meets_criteria efficiency_threshold max_off_targets)
              (check_off_targets_scored
                 (predict_grna_efficiency
                    (design_grnas (clean sequence) sites (gc_min / 100)
                       (gc_max / 100))) (clean sequence)))
    as [|g fs] eqn:Ef; [congruence|].
  assert (Hg : In g (g :: fs)) by now left.
  rewrite <- Ef in Hg. apply filter_In in Hg. destruct Hg as [Hg Hm].
  destruct (scored_pipeline_In (clean sequence) pam_type sites
              (gc_min / 100) (gc_max / 100) g (clean_idem sequence)
              Hsites Hg) as (_ & _ & off & Eoff & H20 & _).
  unfold meets_criteria in Hm. rewrite Eoff in Hm.
  apply andb_true_iff in Hm. destruct Hm as [_ Hm].
  apply Qle_bool_iff in Hm. lra.
Qed.

Lemma process_single_sequence_low_maximum_witness :
  process_single_sequence (py "acgtacgtacgtacgtacgt agg") "SpCas9 (NGG)"
    40 60 0.0 19.9 false false
  <> Ok (Found []).
Proof.
  apply (process_single_sequence_low_maximum
           (py "acgtacgtacgtacgtacgt agg") "SpCas9 (NGG)" 40 60 0.0 19.9
           false false []).
  reflexivity.
Defined.

(** ** The stability analysis of [plot_secondary_structure] *)

Lemma filter_nil {A} (f : A -> bool) (l : list A) :
  (forall x, In x l -> f x = false) -> filter f l = [].
Proof.
  induction l as [|a l IH]; intros H; simpl; [reflexivity|].
  rewrite (H a) by now left. apply IH. intros x Hx. apply H. now right.
Qed.

Lemma dna_slice (s : str) (lo hi : Z) : dna s -> dna (Py.slice s lo hi).
Proof.
  unfold dna. rewrite !Forall_forall. intros H x Hx.
  apply H. eapply slice_incl; eassumption.
Qed.

Lemma count_pairs_AT_dna (s : str) : dna s -> count_pairs s (py "AT") = 0%Z.
Proof.
  intros Hdna. unfold count_pairs. rewrite filter_nil; [reflexivity|].
  intros [i j] _. cbn [fst snd].
  destruct (Py.item s i) as [a|] eqn:Ea; [|reflexivity].
  destruct (Py.item s j) as [b|] eqn:Eb; [|reflexivity].
  apply item_In in Ea, Eb. unfold dna in Hdna. rewrite Forall_forall in Hdna.
  pose proof (Hdna a Ea) as Ha. pose proof (Hdna b Eb) as Hb.
  destruct Ha as [-> | [-> | [-> | ->]]]; try reflexivity.
  destruct Hb as [-> | [-> | [-> | ->]]]; reflexivity.
Qed.

(** X23.  On a DNA sequence the count of weak pairs is always 0: an A is
    looked up as 'U', which never occurs, and a T is turned into 'U', which
    the table does not have.  The verdict then depends on the G-C pairs
    alone: "High" for more than 3, "Medium" for exactly 3, "Low" below. *)
Theorem structure_stability_dna (s : str) :
  dna s ->
  let '(gc, au, verdict) := structure_stability s in
  au = 0%Z /\
  (verdict = "High"%string <-> (3 < gc)%Z) /\
  (verdict = "Medium"%string <-> gc = 3%Z) /\
  (verdict = "Low"%string <-> (gc < 3)%Z).
Proof.
  intros Hdna. unfold structure_stability.
  set (t := if (20 <? Py.len s)%Z then Py.slice s 0 20 else s).
  assert (Ht : dna t)
    by (unfold t; destruct (20 <? Py.len s)%Z;
        [now apply dna_slice|assumption]).
  rewrite (count_pairs_AT_dna t Ht). rewrite Z.add_0_r.
  split; [reflexivity|].
  destruct (Z.ltb_spec 3 (count_pairs t (py "GC"))).
  - repeat split; intros Hst; try discriminate Hst; try reflexivity; lia.
  - destruct (Z.ltb_spec 2 (count_pairs t (py "GC")));
      repeat split; intros Hst; try discriminate Hst; try reflexivity; lia.
Qed.

Lemma structure_stability_dna_witness :
  let '(gc, au, verdict) :=
    structure_stability (py "AAAAATTTTTAAAAATTTTT") in
  au = 0%Z /\ verdict = "Low"%string.
Proof.
  pose proof (structure_stability_dna (py "AAAAATTTTTAAAAATTTTT")) as H.
  destruct (structure_stability (py "AAAAATTTTTAAAAATTTTT"))
    as [[gc au] st] eqn:E.
  destruct H as (Hau & _ & _ & Hlow); [dna_tac|].
  split; [exact Hau|]. apply Hlow.
  assert (Eg : gc = 0%Z) by (vm_compute in E; congruence).
  rewrite Eg. reflexivity.
Defined.

(** ** The position score of the scoring class *)

Lemma fold_left_ext_in {A B} (f g : A -> B -> A) (l : list B) (a : A) :
  (forall a b, In b l -> f a b = g a b) ->
  fold_left f l a = fold_left g l a.
Proof.
  revert a. induction l as [|b l IH]; intros a H; [reflexivity|].
  cbn [fold_left]. rewrite (H a b) by now left.
  apply IH. intros a' b' Hb. apply H. now right.
Qed.

(** X24.  The position score reads the bases 1 to 4 and 16 to 20 only: two
    sequences of the same length that agree at these positions (indices
    0-3 and 15-19) have the same position score. *)
Theorem position_score_ignores_middle (s s' : str) :
  Py.len s = Py.len s' ->
  (forall i, In i [0; 1; 2; 3; 15; 16; 17; 18; 19]%Z ->
     Py.item s i = Py.item s' i) ->
  position_score s = position_score s'.
Proof.
  intros Hlen H. unfold position_score, position_totals.
  rewrite <- Hlen.
  erewrite fold_left_ext_in; [reflexivity|].
  intros [score count] [pos w] Hin. cbv beta iota.
  assert (E : Py.item s (pos - 1) = Py.item s' (pos - 1)).
  { apply H. unfold preferences in Hin. simpl in Hin.
    repeat (destruct Hin as [[= <- _]|Hin]; [simpl; tauto|]).
    destruct Hin. }
  now rewrite E.
Qed.

Lemma position_score_ignores_middle_witness :
  position_score (py "GATTACAGATTACAGATTAC") =
  position_score (py "GATTGGGGGGGGGGGATTAC").
Proof.
  apply position_score_ignores_middle.
  - reflexivity.
  - intros i Hi. simpl in Hi.
    repeat (destruct Hi as [<-|Hi]; [reflexivity|]). destruct Hi.
Defined.

Lemma weights_get_tight (pos : Z) (w : weights) (base : ascii) :
  In (pos, w) preferences -> 0.2 <= weights_get w base <= 0.9.
Proof.
  intros Hin. unfold preferences in Hin. simpl in Hin.
  unfold weights_get.
  repeat (destruct Hin as [[= _ <-]|Hin];
          [cbn [wG wA wC wT];
           repeat (destruct (Ascii.eqb base _); [split; discriminate|]);
           split; discriminate|]).
  destruct Hin.
Qed.

Lemma position_loop_tight (s : str) (table : list (Z * weights))
  (score : Q) (count : Z) :
  (forall pos w, In (pos, w) table -> In (pos, w) preferences) ->
  0.2 * inject_Z count <= score <= 0.9 * inject_Z count ->
  (0 <= count)%Z ->
  let '(score', count') :=
    fold_left
      (fun st pw =>
         let '(score, count) := st in
         let '(pos, w) := pw in
         if (pos <=? Py.len s)%Z then
           match Py.item s (pos - 1) with
           | Some base => (score + weights_get w base, (count + 1)%Z)
           | None => (score, count)
           end
         else (score, count))
      table (score, count) in
  0.2 * inject_Z count' <= score' <= 0.9 * inject_Z count' /\
  (0 <= count')%Z.
Proof.
  revert score count.
  induction table as [|[pos w] table IH]; intros score count Ht Hs Hc.
  - simpl. split; assumption.
  - cbn [fold_left].
    assert (Ht' : forall pos w, In (pos, w) table ->
                    In (pos, w) preferences)
      by (intros; apply Ht; now right).
    destruct (pos <=? Py.len s)%Z; [|now apply IH].
    destruct (Py.item s (pos - 1)) as [base|]; [|now apply IH].
    apply IH; [assumption| |lia].
    pose proof (weights_get_tight pos w base (Ht pos w (or_introl eq_refl))).
    rewrite inject_Z_plus. change (inject_Z 1) with 1. split; lra.
Qed.

(** X25.  The position score always lies between 0.2 and 0.9 (it is 0.5
    for the empty sequence), so the final score lies between 0.06 and 0.97:
    no sequence reaches an efficiency of 1.0. *)
Theorem position_score_tight (s : str) :
  0.2 <= position_score s <= 0.9 /\
  (s = [] -> position_score s = 0.5) /\
  0.06 <= s_final_score (calculate_all_scores s) <= 0.97.
Proof.
  assert (Hp : 0.2 <= position_score s <= 0.9).
  { unfold position_score, position_totals.
    pose proof (position_loop_tight s preferences 0 0) as H.
    destruct (fold_left _ preferences (0, 0%Z)) as [score count].
    destruct H as (Hs & Hc);
      [tauto|split; discriminate|lia|].
    destruct (Z.ltb_spec 0 count); [|split; discriminate].
    assert (Hpos : 0 < inject_Z count) by (rewrite <- (Zlt_Qlt 0); lia).
    split.
    - apply Qle_shift_div_l; [assumption|]. lra.
    - apply Qle_shift_div_r; [assumption|]. lra. }
  split; [exact Hp|]. split; [now intros ->|].
  unfold calculate_all_scores. cbn [s_final_score].
  pose proof (gc_score_bounds s). pose proof (homopolymer_score_bounds s).
  pose proof (self_complementarity_score_bounds s). split; lra.
Qed.

Lemma position_score_tight_witness : position_score [] = 0.5.
Proof.
  apply (position_score_tight []). reflexivity.
Defined.

(** ** Homopolymer runs *)

Lemma startswith_iff (w s : str) :
  Py.startswith w s = true <-> exists b, s = w ++ b.
Proof.
  revert s. induction w as [|x w IH]; intros s; simpl.
  - split; [now exists s|reflexivity].
  - destruct s as [|y s].
    + split; [discriminate|]. intros [b E]. discriminate E.
    + rewrite andb_true_iff, Ascii.eqb_eq, IH. split.
      * intros [-> [b ->]]. now exists b.
      * intros [b [= -> ->]]. split; [reflexivity|now exists b].
Qed.

Lemma contains_iff (w s : str) : Py.contains w s = true <-> infix w s.
Proof.
  unfold infix. induction s as [|y s IH]; simpl.
  - rewrite orb_false_r, startswith_iff. split.
    + intros [b E]. now exists [], b.
    + intros (a & b & E). destruct a; [now exists b|discriminate E].
  - rewrite orb_true_iff, startswith_iff, IH. split.
    + intros [[b E]|(a & b & E)].
      * now exists [], b.
      * exists (y :: a), b. now rewrite E.
    + intros (a & b & E). destruct a as [|z a].
      * left. now exists b.
      * right. injection E as _ E. now exists a, b.
Qed.

Lemma suffix_infix (w s : str) : suffix w s -> infix w s.
Proof. intros [a ->]. exists a, []. now rewrite app_nil_r. Qed.

Lemma infix_app_r (w s l : str) : infix w s -> infix w (s ++ l).
Proof.
  intros (a & b & ->). exists a, (b ++ l). now rewrite <- !app_assoc.
Qed.

Lemma suffix_snoc (w s : str) (x y : ascii) :
  suffix (w ++ [y]) (s ++ [x]) -> y = x /\ suffix w s.
Proof.
  intros [a E]. rewrite app_assoc in E. apply app_inj_tail in E.
  destruct E as [-> ->]. split; [reflexivity|now exists a].
Qed.

Lemma infix_snoc (w s : str) (x : ascii) :
  infix w (s ++ [x]) -> infix w s \/ suffix w (s ++ [x]).
Proof.
  intros (a & b & E). induction b as [|y b _] using rev_ind.
  - right. exists a. now rewrite app_nil_r in E.
  - left. rewrite !app_assoc in E. apply app_inj_tail in E.
    destruct E as [-> _]. exists a, b. now rewrite app_assoc.
Qed.



Lemma infix_length (w s : str) :
  infix w s -> (List.length w <= List.length s)%nat.
Proof. intros (a & b & ->). rewrite !length_app. lia. Qed.

Lemma item_middle {A} (pre post : list A) (x : A) :
  Py.item (pre ++ x :: post) (Py.len pre) = Some x.
Proof.
  unfold Py.item, Py.len. rewrite length_app. cbn [List.length].
  destruct (Z.leb_spec 0 (Z.of_nat (List.length pre))); [|lia].
  destruct (Z.ltb_spec (Z.of_nat (List.length pre))
              (Z.of_nat (List.length pre + S (List.length post)))); [|lia].
  cbn [andb]. rewrite Nat2Z.id, nth_error_app2 by lia.
  now rewrite Nat.sub_diag.
Qed.

(** The loop over the indices is the walk along the sequence. *)
Lemma homopolymer_fold_walk (base : ascii) (l : str) :
  forall (pre : str) (p : ascii) (st : Z * Z),
  fold_left
    (fun st i =>
       let '(max_run, current_run) := st in
       match Py.item (pre ++ p :: l) i, Py.item (pre ++ p :: l) (i - 1) with
       | Some x, Some y =>
           if Ascii.eqb x y && Ascii.eqb y base then
             (Z.max max_run (current_run + 1), current_run + 1)%Z
           else (max_run, 1%Z)
       | _, _ => (max_run, 1%Z)
       end)
    (Py.range (Py.len pre + 1) (Py.len pre + 1 + Py.len l)) st
  = run_loop base p l st.
Proof.
  induction l as [|x l IH]; intros pre p st.
  - unfold Py.len at 3. cbn [List.length]. rewrite range_nil by lia.
    reflexivity.
  - assert (E : Py.len (x :: l) = (Py.len l + 1)%Z)
      by (unfold Py.len; cbn [List.length]; lia).
    pose proof (len_nonneg l) as Hl.
    assert (Ep : Py.len (pre ++ [p]) = (Py.len pre + 1)%Z)
      by (unfold Py.len; rewrite length_app; cbn [List.length]; lia).
    assert (I1 : Py.item (pre ++ p :: x :: l) (Py.len pre + 1) = Some x).
    { rewrite <- Ep.
      replace (pre ++ p :: x :: l) with ((pre ++ [p]) ++ x :: l)
        by (now rewrite <- app_assoc).
      apply item_middle. }
    assert (I2 : Py.item (pre ++ p :: x :: l) (Py.len pre + 1 - 1) = Some p).
    { replace (Py.len pre + 1 - 1)%Z with (Py.len pre) by lia.
      apply item_middle. }
    rewrite E, range_cons by lia. cbn [fold_left run_loop].
    destruct st as [m c]. rewrite I1, I2.
    specialize (IH (pre ++ [p]) x
      (if Ascii.eqb x p && Ascii.eqb p base
       then (Z.max m (c + 1), (c + 1)%Z) else (m, 1%Z))).
    rewrite <- app_assoc in IH. cbn [app] in IH. rewrite Ep in IH.
    replace (Py.len pre + 1 + (Py.len l + 1))%Z
      with (Py.len pre + 1 + 1 + Py.len l)%Z by lia.
    exact IH.
Qed.

Lemma get_homopolymer_run_walk (base : ascii) (s : str) :
  get_homopolymer_run s base =
  match s with
  | [] => 1%Z
  | p :: l => fst (run_loop base p l (1%Z, 1%Z))
  end.
Proof.
  unfold get_homopolymer_run. destruct s as [|p l]; [reflexivity|].
  rewrite <- (homopolymer_fold_walk base l [] p (1%Z, 1%Z)).
  cbn [app]. do 2 f_equal.
  unfold Py.len. cbn [List.length]. f_equal. lia.
Qed.

Lemma suffix_repeat_last (base p : ascii) (k : nat) (P : str) :
  suffix (repeat base (S k)) (P ++ [p]) ->
  base = p /\ suffix (repeat base k) P.
Proof.
  cbn [repeat]. rewrite repeat_cons. apply suffix_snoc.
Qed.

Lemma run_loop_lower (base : ascii) (l : str) :
  forall (P : str) (p : ascii) (m c : Z),
  (1 <= c <= m)%Z ->
  (forall k, suffix (repeat base k) (P ++ [p]) -> (Z.of_nat k <= c)%Z) ->
  (forall k, infix (repeat base k) (P ++ [p]) -> (Z.of_nat k <= m)%Z) ->
  forall k, infix (repeat base k) (P ++ p :: l) ->
    (Z.of_nat k <= fst (run_loop base p l (m, c)))%Z.
Proof.
  induction l as [|x l IH]; intros P p m c Hc Hsuf Hinf k Hk.
  - cbn [run_loop fst]. now apply Hinf.
  - cbn [run_loop].
    replace (P ++ p :: x :: l) with ((P ++ [p]) ++ x :: l) in Hk
      by (now rewrite <- app_assoc).
    assert (Hsuf' : forall c', 
      (if Ascii.eqb x p && Ascii.eqb p base then c' = (c + 1)%Z
       else c' = 1%Z) ->
      forall k0, suffix (repeat base k0) ((P ++ [p]) ++ [x]) ->
        (Z.of_nat k0 <= c')%Z).
    { intros c' Hc' [|k0] Hs.
      - destruct (Ascii.eqb x p && Ascii.eqb p base); lia.
      - apply suffix_repeat_last in Hs. destruct Hs as [Ex Hs].
        destruct (Ascii.eqb x p && Ascii.eqb p base) eqn:Ec.
        + apply Hsuf in Hs. lia.
        + destruct k0 as [|k1]; [lia|]. exfalso.
          apply suffix_repeat_last in Hs. destruct Hs as [Ep _].
          subst x p. rewrite !Ascii.eqb_refl in Ec. discriminate Ec. }
    destruct (Ascii.eqb x p && Ascii.eqb p base) eqn:Ec.
    + apply (IH (P ++ [p]) x (Z.max m (c + 1)) (c + 1)%Z); try lia.
      * apply Hsuf'. reflexivity.
      * intros k0 Hk0. apply infix_snoc in Hk0. destruct Hk0 as [H|H].
        -- apply Hinf in H. lia.
        -- apply (Hsuf' (c + 1)%Z) in H; [lia|reflexivity].
      * exact Hk.
    + apply (IH (P ++ [p]) x m 1%Z); try lia.
      * apply Hsuf'. reflexivity.
      * intros k0 Hk0. apply infix_snoc in Hk0. destruct Hk0 as [H|H].
        -- now apply Hinf.
        -- apply (Hsuf' 1%Z) in H; [lia|reflexivity].
      * exact Hk.
Qed.

Lemma run_loop_witness (base : ascii) (l : str) :
  forall (P : str) (p : ascii) (m c : Z),
  (1 <= c <= m)%Z ->
  (c = 1%Z \/ suffix (repeat base (Z.to_nat c)) (P ++ [p])) ->
  (m = 1%Z \/ infix (repeat base (Z.to_nat m)) (P ++ [p])) ->
  let r := fst (run_loop base p l (m, c)) in
  (1 <= r)%Z /\
  (r = 1%Z \/ infix (repeat base (Z.to_nat r)) (P ++ p :: l)).
Proof.
  induction l as [|x l IH]; intros P p m c Hc Hsuf Hinf; cbv zeta.
  - cbn [run_loop fst]. split; [lia|exact Hinf].
  - cbn [run_loop].
    replace (P ++ p :: x :: l) with ((P ++ [p]) ++ x :: l)
      by (now rewrite <- app_assoc).
    destruct (Ascii.eqb x p && Ascii.eqb p base) eqn:Ec.
    + apply andb_true_iff in Ec. destruct Ec as [Ex Ep].
      apply Ascii.eqb_eq in Ex, Ep. subst x p.
      assert (Hs : suffix (repeat base (Z.to_nat (c + 1)))
                          ((P ++ [base]) ++ [base])).
      { replace (Z.to_nat (c + 1)) with (S (Z.to_nat c)) by lia.
        cbn [repeat]. rewrite repeat_cons.
        destruct Hsuf as [->|[a Ea]].
        - exists P. now rewrite <- app_assoc.
        - exists a. rewrite Ea. now rewrite <- app_assoc. }
      apply (IH (P ++ [base]) base (Z.max m (c + 1)) (c + 1)%Z);
        [lia|now right|].
      right. destruct (Z.max_spec m (c + 1)) as [[_ ->]|[Hle ->]].
      * now apply suffix_infix.
      * destruct Hinf as [->|Hinf]; [lia|]. now apply infix_app_r.
    + apply (IH (P ++ [p]) x m 1%Z); [lia|now left|].
      destruct Hinf as [->|Hinf]; [now left|right].
      now apply infix_app_r.
Qed.

Lemma get_homopolymer_run_walk_spec (s : str) (base : ascii) :
  let run := get_homopolymer_run s base in
  (1 <= run)%Z /\
  (forall k, Py.contains (repeat base k) s = true -> (Z.of_nat k <= run)%Z) /\
  ((2 <= run)%Z -> Py.contains (repeat base (Z.to_nat run)) s = true).
Proof.
  cbv zeta. rewrite get_homopolymer_run_walk. destruct s as [|p l].
  - split; [lia|]. split; [|lia].
    intros k Hk. apply contains_iff, infix_length in Hk.
    rewrite repeat_length in Hk. simpl in Hk. lia.
  - pose proof (run_loop_witness base l [] p 1 1) as Hw. cbv zeta in Hw.
    destruct Hw as [H1 Hw]; [lia|now left|now left|].
    split; [exact H1|]. split.
    + intros k Hk. apply contains_iff in Hk.
      apply (run_loop_lower base l [] p 1 1); try lia; try exact Hk.
      * intros k0 Hs. apply suffix_infix, infix_length in Hs.
        rewrite repeat_length in Hs. simpl in Hs. lia.
      * intros k0 Hs. apply infix_length in Hs.
        rewrite repeat_length in Hs. simpl in Hs. lia.
    + intros H2. apply contains_iff. destruct Hw as [E|Hw]; [lia|].
      exact Hw.
Qed.

(** X26.  [get_homopolymer_run] returns the length of the longest run of
    the base, and 1 when the base occurs once at most, also when it does not
    occur at all or the sequence is empty: the result is at least 1, it is
    at least k whenever k copies of the base occur in a row, and from 2 on
    that many copies do occur in a row. *)
Theorem get_homopolymer_run_spec (s : str) (base : ascii) :
  let run := get_homopolymer_run s base in
  (1 <= run)%Z /\
  (forall k, Py.contains (repeat base k) s = true -> (Z.of_nat k <= run)%Z) /\
  ((2 <= run)%Z -> Py.contains (repeat base (Z.to_nat run)) s = true).
Proof. apply get_homopolymer_run_walk_spec. Qed.

Lemma get_homopolymer_run_spec_witness :
  (3 <= get_homopolymer_run (py "ACGGGTA") "G")%Z /\
  (1 <= get_homopolymer_run (py "ACGGGTA") "N")%Z.
Proof.
  split.
  - apply (get_homopolymer_run_spec (py "ACGGGTA") "G") with (k := 3%nat).
    reflexivity.
  - apply (get_homopolymer_run_spec (py "ACGGGTA") "N").
Defined.






(** * The off-target score against the specification's own notions *)

Lemma mismatches_nil_l (w : str) : Py.mismatches [] w = 0%Z.
Proof. reflexivity. Qed.

(** [sum(a != b for a, b in zip(x, y))] counts the indices at which the two
    strings differ. *)
Lemma mismatches_count (a : str) :
  forall w : str, (List.length a <= List.length w)%nat ->
  Py.mismatches a w =
  Z.of_nat
    (List.length
       (filter
          (fun k =>
             match nth_error a k, nth_error w k with
             | Some x, Some y => negb (Ascii.eqb x y)
             | _, _ => false
             end)
          (seq 0 (List.length a)))).
Proof.
  induction a as [|x a IH]; intros w Hlen; [reflexivity|].
  destruct w as [|y w]; [simpl in Hlen; lia|].
  cbn [Py.mismatches List.length seq filter nth_error].
  rewrite <- seq_shift, filter_map_swap. cbn [nth_error].
  rewrite (IH w) by (simpl in Hlen; lia).
  destruct (Ascii.eqb x y); cbn [negb List.length]; rewrite length_map; lia.
Qed.

(** The code's count on the slice at offset [i] is the Hamming distance
    at [i]. *)
Lemma window_mismatches_hamming (guide target : str) (i : nat) :
  (i + List.length guide <= List.length target)%nat ->
  window_mismatches guide target (Z.of_nat i)
  = Z.of_nat (hamming_at guide target i).
Proof.
  intros Hfit. unfold window_mismatches, hamming_at.
  rewrite slice_firstn_skipn by (pose proof (len_nonneg guide); lia).
  unfold Py.len. rewrite !Nat2Z.id.
  rewrite mismatches_count
    by (rewrite length_firstn, length_skipn; lia).
  do 2 f_equal. apply filter_ext_in. intros k Hk. apply in_seq in Hk.
  rewrite nth_error_firstn, nth_error_skipn.
  destruct (Nat.ltb_spec k (List.length guide)); [reflexivity|lia].
Qed.

Lemma window_term_hamming (guide target : str) (i : nat) :
  (i + List.length guide <= List.length target)%nat ->
  window_term guide target (Z.of_nat i) = hamming_term guide target i.
Proof.
  intros Hfit. unfold window_term, hamming_term.
  rewrite window_mismatches_hamming by assumption.
  destruct (Z.leb_spec (Z.of_nat (hamming_at guide target i)) 4);
    destruct (Nat.leb_spec (hamming_at guide target i) 4);
    try reflexivity; lia.
Qed.

Lemma sum_below_upto (guide target : str) (k : nat) :
  (k + List.length guide <= List.length target)%nat ->
  sum_below (window_term guide target) k
  == sum_upto (hamming_term guide target) k.
Proof.
  induction k as [|k IH]; intros Hk; [reflexivity|].
  cbn [sum_below sum_upto].
  rewrite IH, window_term_hamming by lia. reflexivity.
Qed.

(** The running sum of the loop is the sum of the specification. *)
Lemma off_target_sum_hamming (guide target : str) :
  off_target_sum guide target == hamming_sum guide target.
Proof.
  rewrite off_target_sum_spec. unfold hamming_sum, Py.len.
  replace (Z.to_nat (Z.of_nat (List.length target)
                     - Z.of_nat (List.length guide)))
    with (List.length target - List.length guide)%nat by lia.
  destruct (Nat.le_gt_cases (List.length guide) (List.length target)).
  - apply sum_below_upto. lia.
  - replace (List.length target - List.length guide)%nat with 0%nat by lia.
    reflexivity.
Qed.

(** [round(x, 1)] rounds to one decimal place, half-way cases to even. *)
Lemma round1_rounds (x : Q) : rounds_to_tenth x (Py.round1 x).
Proof.
  unfold rounds_to_tenth, Py.round1.
  exists (Py.round_half_even (x * 10)).
  assert (E : forall z : Z, Qmake z 10 == inject_Z z / 10)
    by (intros z; unfold Qeq, Qdiv, Qmult, Qinv, inject_Z; simpl; lia).
  split; [apply E|].
  unfold Py.round_half_even.
  set (f := Qfloor (x * 10)).
  pose proof (Qfloor_le (x * 10)) as Hlo. fold f in Hlo.
  pose proof (Qlt_floor (x * 10)) as Hhi. fold f in Hhi.
  rewrite inject_Z_plus in Hhi. change (inject_Z 1) with 1 in Hhi.
  assert (E1 : inject_Z (f + 1) == inject_Z f + 1)
    by (rewrite inject_Z_plus; reflexivity).
  destruct (Qcompare_spec (x * 10 - inject_Z f) (1 # 2)) as [Ht|Ht|Ht].
  - destruct (Z.even f) eqn:Ef.
    + rewrite (E f). unfold Qdiv. change (/ 10) with (1 # 10).
      repeat split; try lra. intros _. exact Ef.
    + rewrite (E (f + 1)%Z), E1. unfold Qdiv. change (/ 10) with (1 # 10).
      repeat split; try lra. intros _.
      rewrite Z.add_1_r, Z.even_succ, <- Z.negb_even, Ef. reflexivity.
  - rewrite (E f). unfold Qdiv. change (/ 10) with (1 # 10).
    repeat split; try lra; intros [H|H]; exfalso; lra.
  - rewrite (E (f + 1)%Z), E1. unfold Qdiv. change (/ 10) with (1 # 10).
    repeat split; try lra; intros [H|H]; exfalso; lra.
Qed.

Lemma rounds_to_tenth_comp (x y r : Q) :
  x == y -> rounds_to_tenth x r -> rounds_to_tenth y r.
Proof.
  intros E (z & Hr & Hlo & Hhi & Hev). exists z.
  split; [exact Hr|]. rewrite <- E. auto.
Qed.

(** Rounding to one decimal place determines the result. *)
Lemma rounds_to_tenth_unique (x r r' : Q) :
  rounds_to_tenth x r -> rounds_to_tenth x r' -> r == r'.
Proof.
  intros (z & Hr & Hlo & Hhi & Hev) (z' & Hr' & Hlo' & Hhi' & Hev').
  rewrite Hr, Hr' in *. clear Hr Hr'.
  revert Hlo Hhi Hev Hlo' Hhi' Hev'.
  unfold Qdiv. change (/ 10) with (1 # 10). intros.
  assert (Hd : (z - z' <= 1)%Z /\ (z' - z <= 1)%Z).
  { split; rewrite Zle_Qle; unfold Z.sub;
      rewrite inject_Z_plus, inject_Z_opp; change (inject_Z 1) with 1; lra. }
  destruct (Z.eq_dec z z') as [->|Hne]; [reflexivity|exfalso].
  assert (Hcase : z' = (z + 1)%Z \/ z = (z' + 1)%Z) by lia.
  destruct Hcase as [->| ->].
  - rewrite inject_Z_plus in *. change (inject_Z 1) with 1 in *.
    assert (E1 : Z.even z = true) by (apply Hev; right; lra).
    assert (E2 : Z.even (z + 1) = true) by (apply Hev'; left; lra).
    rewrite Z.add_1_r, Z.even_succ, <- Z.negb_even, E1 in E2.
    discriminate E2.
  - rewrite inject_Z_plus in *. change (inject_Z 1) with 1 in *.
    assert (E1 : Z.even z' = true) by (apply Hev'; right; lra).
    assert (E2 : Z.even (z' + 1) = true) by (apply Hev; left; lra).
    rewrite Z.add_1_r, Z.even_succ, <- Z.negb_even, E1 in E2.
    discriminate E2.
Qed.

(** C7.  [check_off_targets] returns one record per candidate handed in, in
    the same order and with the other entries unchanged.  For a guide of
    length L no longer than the sequence of length n, the score attached is
    min(100, 20 x sum) rounded to one decimal place (half-way cases to
    even), where the sum runs over the offsets 0 .. n - L - 1 and adds
    1/2^m for every window whose Hamming distance m to the guide is at most
    4; the offsets visited are exactly 0 .. n - L - 1, so the alignment at
    n - L is not evaluated; the score lies in [0, 100]. *)
Theorem check_off_targets_score (grnas : list grna) (target : str) :
  List.length (check_off_targets grnas target) = List.length grnas /\
  forall (k : nat) (g : grna),
    nth_error grnas k = Some g ->
    (Py.len (sequence g) <= Py.len target)%Z ->
    exists g' score,
      nth_error (check_off_targets grnas target) k = Some g' /\
      sequence g' = sequence g /\ pam g' = pam g /\
      position g' = position g /\ gc_content g' = gc_content g /\
      off_target_score g' = Some score /\
      rounds_to_tenth (Qmin 100 (20 * hamming_sum (sequence g) target))
                      score /\
      (forall r, rounds_to_tenth
                   (Qmin 100 (20 * hamming_sum (sequence g) target)) r ->
                 r == score) /\
      (forall i, In i (window_offsets (sequence g) target) <->
                 (0 <= i <= Py.len target - Py.len (sequence g) - 1)%Z) /\
      ~ In (Py.len target - Py.len (sequence g))%Z
           (window_offsets (sequence g) target) /\
      0 <= score <= 100.
Proof.
  split; [unfold check_off_targets; apply length_map|].
  intros k g Hk _.
  assert (Hr : rounds_to_tenth
                 (Qmin 100 (20 * hamming_sum (sequence g) target))
                 (off_target (sequence g) target)).
  { unfold off_target.
    eapply rounds_to_tenth_comp; [|apply round1_rounds].
    apply Q.min_compat; [reflexivity|].
    rewrite off_target_sum_hamming. ring. }
  eexists. exists (off_target (sequence g) target). split.
  - unfold check_off_targets. apply map_nth_error. exact Hk.
  - cbn [sequence pam position gc_content off_target_score].
    repeat (split; [reflexivity|]).
    split; [exact Hr|].
    split; [intros r Hr'; exact (rounds_to_tenth_unique _ _ _ Hr' Hr)|].
    split; [intros i; apply window_offsets_In|].
    split; [rewrite window_offsets_In; lia|].
    apply off_target_bounds.
Qed.

Lemma check_off_targets_score_witness :
  exists g' score,
    nth_error
      (check_off_targets [grna_at (py "ACGTACGTACGTACGTACGTAGG") 20]
                         (py "ACGTACGTACGTACGTACGTAGG")) 0 = Some g' /\
    off_target_score g' = Some score /\
    rounds_to_tenth
      (Qmin 100 (20 * hamming_sum (py "ACGTACGTACGTACGTACGT")
                                  (py "ACGTACGTACGTACGTACGTAGG")))
      score /\
    0 <= score <= 100.
Proof.
  destruct (check_off_targets_score
              [grna_at (py "ACGTACGTACGTACGTACGTAGG") 20]
              (py "ACGTACGTACGTACGTACGTAGG")) as [_ H].
  destruct (H 0%nat (grna_at (py "ACGTACGTACGTACGTACGTAGG") 20))
    as (g' & score & Hn & _ & _ & _ & _ & Hs & Hr & _ & _ & _ & Hb).
  - reflexivity.
  - vm_compute. discriminate.
  - exists g', score. split; [exact Hn|]. split; [exact Hs|].
    split; [exact Hr|exact Hb].
Defined.


